(** * The init-context module loader of k6 ([js/initcontext.go])

    A shallow embedding of [InitContext] and of its operations
    [NewInitContext], [newBoundInitContext], [Require], [requireModule],
    [requireFile] and [Open], followed by the properties of the loader:
    compile-once caching, the scoped [pwd] and [exports]/[module] swaps,
    re-execution on every [require], error paths and context replication.

    Conventions.
    - Go maps are reference types: the two caches of an [InitContext] live in
      a shared [Store] and the context only holds their addresses, so that a
      context made by [newBoundInitContext] aliases the caches of its base.
    - The scripting engine (goja), the loader, the compiler and the module
      registry are not part of this file of the program.  The loader, the
      compiler and the registry are parameters of the development (the
      class [Collaborators]); the part of the engine that the loader drives
      (global bindings, object allocation, running a compiled program that
      may call back into [require] and [open]) is modelled below.
    - Every call of a collaborator is recorded in the store's [calls] log;
      the log is ghost state, it is never read by the program. *)

From Stdlib Require Import String Ascii List ZArith Bool Lia.
From stdpp Require Import base option gmap strings list.

Open Scope string_scope.

(** ** Values and errors *)

Definition loc := nat.
Definition addr := nat.

(** Script values.  A [goja.Value] is a Go interface: the Go [nil] value is
    [None : option Value]. *)
Inductive Value : Type :=
| Undefined
| Null
| Number (n : Z)
| Str (s : string)
| Object (l : loc).

(** Go [error] values.  [errorString] is what [errors.New] builds and what
    the collaborators return; the other two are the exceptions that
    [RunProgram] reports: a script-level [throw] of a value, and the
    exception that [common.Throw] raises around a Go error. *)
Inductive error : Type :=
| errorString (msg : string)
| Exception (val : Value)
| GoError (wrapped : error).

(** A Go result pair [(v, err)], and the outcome of a function that either
    returns or throws into the script. *)
Inductive result (A : Type) : Type :=
| Ok (a : A)
| Err (e : error).
Arguments Ok {A} a.
Arguments Err {A} e.

Definition isOk {A} (r : result A) : bool :=
  match r with Ok _ => true | Err _ => false end.

(** ** The scripting engine: global bindings and objects *)

Record Runtime : Type := mkRuntime {
  globalObject : gmap string Value;
  heap : gmap loc (gmap string Value)
}.

(** [ToValue]: a Go [nil] becomes the script value [null], a [Value] is
    passed through. *)
Definition ToValue (v : option Value) : Value :=
  match v with
  | None => Null
  | Some v => v
  end.

(** [rt.Get(name)]: the property of the global object, [nil] when absent. *)
Definition Get (rt : Runtime) (name : string) : option Value :=
  globalObject rt !! name.

(** [rt.Set(name, value)]: the value is first converted with [ToValue]. *)
Definition Set_ (rt : Runtime) (name : string) (value : option Value) : Runtime :=
  mkRuntime (<[name := ToValue value]> (globalObject rt)) (heap rt).

(** Allocation of an object with the given own properties, at an address
    that no live object has. *)
Definition allocObject (rt : Runtime) (props : gmap string Value) : loc * Runtime :=
  let l := fresh (dom (heap rt)) in
  (l, mkRuntime (globalObject rt) (<[l := props]> (heap rt))).

(** [rt.NewObject()]. *)
Definition NewObject (rt : Runtime) : loc * Runtime :=
  allocObject rt ∅.

(** [obj.Set(name, value)] and [obj.Get(name)] on the object at [l]. *)
Definition ObjectSet (rt : Runtime) (l : loc) (name : string) (value : Value) : Runtime :=
  mkRuntime (globalObject rt)
            (<[l := <[name := value]> (default ∅ (heap rt !! l))]> (heap rt)).

Definition ObjectGet (rt : Runtime) (l : loc) (name : string) : option Value :=
  default ∅ (heap rt !! l) !! name.

(** ** Compiled programs

    A [goja.Program] is opaque to the loader: all it can do is run it.  A
    program is modelled by what running it does: steps on the engine state,
    calls of the [require] and [open] functions that the init context binds
    into the runtime (each continues with the value returned or with the
    error thrown, which the script may catch or rethrow), and completion,
    normal or by an uncaught exception. *)
Inductive Program : Type :=
| PDone
| PThrow (e : error)
| PEngine (f : Runtime -> Runtime) (k : Program)
| PInspect (k : Runtime -> Program)
| PRequire (arg : string) (k : result (option Value) -> Program)
| POpen (arg : string) (k : result string -> Program).

Record programWithSource : Type := mkProgramWithSource {
  pgm : Program;
  src : string
}.

(** [lib.SourceData], the result of [loader.Load]. *)
Record SourceData : Type := mkSourceData {
  Data : list Byte.byte;
  Filename : string
}.

(** ** Calls of the collaborators (ghost log)

    Each event carries the canonical path ([filename] in the source) that
    the caller is serving, then the arguments of the call. *)
Inductive Site : Type := InRequireFile | InOpen.

Inductive Event : Type :=
| EvLoad (site : Site) (filename pwd name : string)
| EvTransform (filename code dataFilename : string)
| EvCompile (filename dataFilename code : string)
| EvRunProgram (filename : string).

Definition isLoadOf (site : Site) (filename : string) (e : Event) : bool :=
  match e, site with
  | EvLoad InRequireFile f _ _, InRequireFile => String.eqb f filename
  | EvLoad InOpen f _ _, InOpen => String.eqb f filename
  | _, _ => false
  end.

Definition isTransformOf (filename : string) (e : Event) : bool :=
  match e with
  | EvTransform f _ _ => String.eqb f filename
  | _ => false
  end.

Definition isCompileOf (filename : string) (e : Event) : bool :=
  match e with
  | EvCompile f _ _ => String.eqb f filename
  | _ => false
  end.

Definition isRunOf (filename : string) (e : Event) : bool :=
  match e with
  | EvRunProgram f => String.eqb f filename
  | _ => false
  end.

(** Number of events of a log that satisfy [p]. *)
Definition count (p : Event -> bool) (t : list Event) : nat :=
  length (List.filter p t).

(** ** The shared store: the maps behind the cache fields *)

Record Store : Type := mkStore {
  programMaps : gmap addr (gmap string programWithSource);
  fileMaps : gmap addr (gmap string (list Byte.byte));
  consoles : gset addr;
  calls : list Event
}.

(** The map at an address; reading a map that was never made gives the
    empty map, as reading a nil map does in Go. *)
Definition programsAt (σ : Store) (a : addr) : gmap string programWithSource :=
  default ∅ (programMaps σ !! a).

Definition filesAt (σ : Store) (a : addr) : gmap string (list Byte.byte) :=
  default ∅ (fileMaps σ !! a).

Definition setProgram (σ : Store) (a : addr) (k : string) (p : programWithSource) : Store :=
  mkStore (<[a := <[k := p]> (programsAt σ a)]> (programMaps σ))
          (fileMaps σ) (consoles σ) (calls σ).

Definition setFile (σ : Store) (a : addr) (k : string) (d : list Byte.byte) : Store :=
  mkStore (programMaps σ)
          (<[a := <[k := d]> (filesAt σ a)]> (fileMaps σ))
          (consoles σ) (calls σ).

Definition logCall (e : Event) (σ : Store) : Store :=
  mkStore (programMaps σ) (fileMaps σ) (consoles σ) (calls σ ++ [e]).

(** ** The collaborators

    [afero.Fs], [loader.Resolve], [loader.Dir], [loader.Load],
    [compiler.Transform] (its source map is discarded by the caller),
    [goja.Compile], [modules.Index] and [common.Bind]. *)
Class Collaborators : Type := {
  Fs : Type;
  Resolve : string -> string -> string;
  Dir : string -> string;
  Load : option Fs -> string -> string -> result SourceData;
  Transform : string -> string -> result string;
  Compile : string -> string -> bool -> result Program;
  NativeModule : Type;
  Index : gmap string NativeModule;
  Bind : Runtime -> NativeModule -> addr -> gmap string Value
}.

(** [arg == "k6" || strings.HasPrefix(arg, "k6/")]. *)
Definition isBuiltin (arg : string) : bool :=
  String.eqb arg "k6" || String.prefix "k6/" arg.

(** The error of [requireModule]. *)
Definition unknownBuiltinModule (name : string) : error :=
  errorString (String.append "unknown builtin module: " name).

(** Entering the export scope of a load (lines 132-136): a new [exports]
    object, and a new [module] object whose [exports] property is it, are
    bound in the global object. *)
Definition enterScope (rt : Runtime) : loc * loc * Runtime :=
  let '(exports, rt) := NewObject rt in
  let rt := Set_ rt "exports" (Some (Object exports)) in
  let '(module, rt) := NewObject rt in
  let rt := ObjectSet rt module "exports" (Object exports) in
  let rt := Set_ rt "module" (Some (Object module)) in
  (exports, module, rt).

(** ** The init context *)

Section Loader.

Context `{Collaborators}.

Record InitContext : Type := mkInitContext {
  (* Bound runtime; used to instantiate objects. *)
  runtime : Runtime;
  (* Pointer to a context that bridged modules are invoked with. *)
  ctxPtr : addr;
  (* Filesystem to load files and scripts from; [None] is Go's nil. *)
  fs : option Fs;
  pwd : string;
  (* Cache of loaded programs and files: the addresses of the two maps. *)
  programs : addr;
  files : addr;
  (* Console object. *)
  Console : addr
}.

(** Assignments to the two fields that the loader writes. *)
Definition setPwd (d : string) (i : InitContext) : InitContext :=
  mkInitContext (runtime i) (ctxPtr i) (fs i) d (programs i) (files i) (Console i).

Definition setRuntime (rt : Runtime) (i : InitContext) : InitContext :=
  mkInitContext rt (ctxPtr i) (fs i) (pwd i) (programs i) (files i) (Console i).

(** [NewInitContext]: both caches are made afresh, and so is the console. *)
Definition NewInitContext (σ : Store) (rt : Runtime) (ctxPtr : addr)
    (fs : option Fs) (pwd : string) : InitContext * Store :=
  let p := fresh (dom (programMaps σ)) in
  let f := fresh (dom (fileMaps σ)) in
  let c := fresh (consoles σ) in
  (mkInitContext rt ctxPtr fs pwd p f c,
   mkStore (<[p := ∅]> (programMaps σ)) (<[f := ∅]> (fileMaps σ))
           ({[c]} ∪ consoles σ) (calls σ)).

(** [newBoundInitContext]: the caches and the console are the base's, the
    filesystem is nil. *)
Definition newBoundInitContext (base : InitContext) (ctxPtr : addr)
    (rt : Runtime) : InitContext :=
  mkInitContext rt ctxPtr None (pwd base) (programs base) (files base) (Console base).

(** The three deferred statements of [requireFile], last deferred first. *)
Definition leaveScope (pwd0 : string) (oldExports oldModule : option Value)
    (i : InitContext) : InitContext :=
  let rt := Set_ (runtime i) "module" oldModule in
  let rt := Set_ rt "exports" oldExports in
  setPwd pwd0 (setRuntime rt i).

Definition State : Type := Store * InitContext.

(** [requireModule]: the bound module is converted by [ToValue] into a new
    object of the runtime. *)
Definition requireModule (i : InitContext) (name : string)
    : result (option Value) * InitContext :=
  match Index !! name with
  | None => (Err (unknownBuiltinModule name), i)
  | Some md =>
      let '(l, rt) := allocObject (runtime i) (Bind (runtime i) md (ctxPtr i)) in
      (Ok (Some (Object l)), setRuntime rt i)
  end.

(** [Open]. *)
Definition Open (st : State) (name : string) : result string * State :=
  let '(σ, i) := st in
  let filename := Resolve (pwd i) name in
  match filesAt σ (files i) !! filename with
  | Some data => (Ok (string_of_list_byte data), (σ, i))
  | None =>
      let σ := logCall (EvLoad InOpen filename (pwd i) name) σ in
      match Load (fs i) (pwd i) name with
      | Err e => (Err e, (σ, i))
      | Ok data_ =>
          (Ok (string_of_list_byte (Data data_)),
           (setFile σ (files i) filename (Data data_), i))
      end
  end.

(** Lines 139-155 of [requireFile]: the cached program, or the source read,
    transformed, compiled and cached. *)
Definition loadProgram (σ : Store) (i : InitContext) (pwd0 name filename : string)
    : result programWithSource * Store :=
  match programsAt σ (programs i) !! filename with
  | Some pgm => (Ok pgm, σ)
  | None =>
      let σ := logCall (EvLoad InRequireFile filename pwd0 name) σ in
      match Load (fs i) pwd0 name with
      | Err e => (Err e, σ)
      | Ok data =>
          let code := string_of_list_byte (Data data) in
          let σ := logCall (EvTransform filename code (Filename data)) σ in
          match Transform code (Filename data) with
          | Err e => (Err e, σ)
          | Ok src =>
              let σ := logCall (EvCompile filename (Filename data) src) σ in
              match Compile (Filename data) src true with
              | Err e => (Err e, σ)
              | Ok pgm_ =>
                  let pgm := mkProgramWithSource pgm_ src in
                  (Ok pgm, setProgram σ (programs i) filename pgm)
              end
          end
      end
  end.

(** What the three collaborators make of a specifier, without the cache
    and without the log. *)
Definition compileSource (fs : option Fs) (pwd0 name : string)
    : result programWithSource :=
  match Load fs pwd0 name with
  | Err e => Err e
  | Ok data =>
      match Transform (string_of_list_byte (Data data)) (Filename data) with
      | Err e => Err e
      | Ok src =>
          match Compile (Filename data) src true with
          | Err e => Err e
          | Ok pgm_ => Ok (mkProgramWithSource pgm_ src)
          end
      end
  end.

(** Running a program.  [require] is the function bound into the runtime
    under that name, [open] is [Open]; [None] means that the nesting of
    loads was cut off. *)
Section Engine.

Variable require : State -> string -> option (result (option Value) * State).

Fixpoint RunProgram (p : Program) (st : State) : option (result unit * State) :=
  match p with
  | PDone => Some (Ok tt, st)
  | PThrow e => Some (Err e, st)
  | PEngine f k => RunProgram k (st.1, setRuntime (f (runtime st.2)) st.2)
  | PInspect k => RunProgram (k (runtime st.2)) st
  | PRequire arg k =>
      match require st arg with
      | None => None
      | Some (r, st') => RunProgram (k r) st'
      end
  | POpen arg k =>
      let '(r, st') := Open st arg in RunProgram (k r) st'
  end.

(** The body of [requireFile].  The [goja.Undefined()] that accompanies an
    error is dropped, the caller ignores it. *)
Definition requireFileWith (st : State) (name : string)
    : option (result (option Value) * State) :=
  let '(σ, i) := st in
  (* Resolve the file path, push the target directory as pwd. *)
  let pwd0 := pwd i in
  let filename := Resolve pwd0 name in
  let i := setPwd (Dir filename) i in
  (* Swap the importing scope's imports out. *)
  let oldExports := Get (runtime i) "exports" in
  let oldModule := Get (runtime i) "module" in
  let '(exports, module, rt) := enterScope (runtime i) in
  let i := setRuntime rt i in
  (* Read sources, transform into ES6 and cache the compiled program. *)
  match loadProgram σ i pwd0 name filename with
  | (Err e, σ) => Some (Err e, (σ, leaveScope pwd0 oldExports oldModule i))
  | (Ok p, σ) =>
      (* Execute the program to populate exports. *)
      let σ := logCall (EvRunProgram filename) σ in
      match RunProgram (pgm p) (σ, i) with
      | None => None
      | Some (Err e, (σ, i)) =>
          Some (Err e, (σ, leaveScope pwd0 oldExports oldModule i))
      | Some (Ok _, (σ, i)) =>
          Some (Ok (ObjectGet (runtime i) module "exports"),
                (σ, leaveScope pwd0 oldExports oldModule i))
      end
  end.

End Engine.

(** The body of [Require], over the file loader it falls back on.  [Err e]
    stands for [common.Throw(i.runtime, e)]. *)
Definition RequireWith
    (requireFile : State -> string -> option (result (option Value) * State))
    (st : State) (arg : string) : option (result (option Value) * State) :=
  if isBuiltin arg then
    let '(r, i) := requireModule st.2 arg in Some (r, (st.1, i))
  else
    requireFile st arg.

(** [requireFile]: the [require] that a loaded program calls is [Require]
    again; [fuel] bounds the depth of nested loads. *)
Fixpoint requireFile (fuel : nat) (st : State) (name : string)
    : option (result (option Value) * State) :=
  match fuel with
  | 0 => None
  | S fuel' => requireFileWith (RequireWith (requireFile fuel')) st name
  end.

(** [Require]. *)
Definition Require (fuel : nat) (st : State) (arg : string)
    : option (result (option Value) * State) :=
  RequireWith (requireFile fuel) st arg.

(** The events logged between two stores. *)
Definition since (σ σ' : Store) : list Event :=
  drop (length (calls σ)) (calls σ').

(** ** Relating the state before and after a call *)

(** Every field of the context but the runtime. *)
Definition sameContext (i i' : InitContext) : Prop :=
  ctxPtr i' = ctxPtr i /\ fs i' = fs i /\ pwd i' = pwd i /\
  programs i' = programs i /\ files i' = files i /\ Console i' = Console i.

(** Cache entries are never changed or removed. *)
Definition cachesGrow (σ σ' : Store) : Prop :=
  (forall a k p, programsAt σ a !! k = Some p -> programsAt σ' a !! k = Some p) /\
  (forall a k d, filesAt σ a !! k = Some d -> filesAt σ' a !! k = Some d).

(** A load, transform or compile event can only be about a path that was
    missing from the cache it fills. *)
Definition onMiss (st : State) (e : Event) : Prop :=
  match e with
  | EvLoad InRequireFile f _ _ => programsAt st.1 (programs st.2) !! f = None
  | EvTransform f _ _ => programsAt st.1 (programs st.2) !! f = None
  | EvCompile f _ _ => programsAt st.1 (programs st.2) !! f = None
  | EvLoad InOpen f _ _ => filesAt st.1 (files st.2) !! f = None
  | EvRunProgram _ => True
  end.

(** A call that fails in the resolution step ends with an error before any
    collaborator is called. *)
Definition failsInResolution (st : State)
    (out : option (result (option Value) * State)) : Prop :=
  exists e st', out = Some (Err e, st') /\ since st.1 st'.1 = [].

Definition evolves (st st' : State) : Prop :=
  sameContext st.2 st'.2 /\ cachesGrow st.1 st'.1 /\
  exists t, calls st'.1 = (calls st.1 ++ t)%list /\ Forall (onMiss st) t.

(** The states that a context reaches by further [Require] and [Open]
    calls. *)
Inductive later : State -> State -> Prop :=
| later_now st : later st st
| later_Require fuel st arg r st1 st2 :
    Require fuel st arg = Some (r, st1) -> later st1 st2 -> later st st2
| later_Open st name r st1 st2 :
    Open st name = (r, st1) -> later st1 st2 -> later st st2.


(** ** What a call may write *)

Definition isCompile (e : Event) : bool :=
  match e with
  | EvCompile _ _ _ => true
  | _ => false
  end.

Definition isTransform (e : Event) : bool :=
  match e with
  | EvTransform _ _ _ => true
  | _ => false
  end.

Definition isOpenLoad (e : Event) : bool :=
  match e with
  | EvLoad InOpen _ _ _ => true
  | _ => false
  end.

(** A loader that returns no content for the filesystem [fs0]. *)
Definition loaderFails (fs0 : option Fs) : Prop :=
  forall pwd0 name, isOk (Load fs0 pwd0 name) = false.

(** What the calls of the context [i] do to the store: the maps of other
    contexts and the consoles are left alone; the program maps change only
    when the compiler was called, the file maps only when [Open] called the
    loader, and neither does when the loader returns nothing. *)
Definition confined (i : InitContext) (σ σ' : Store) : Prop :=
  (forall a, a <> programs i -> programMaps σ' !! a = programMaps σ !! a) /\
  (forall a, a <> files i -> fileMaps σ' !! a = fileMaps σ !! a) /\
  consoles σ' = consoles σ /\
  (count isCompile (since σ σ') = 0 -> programMaps σ' = programMaps σ) /\
  (count isOpenLoad (since σ σ') = 0 -> fileMaps σ' = fileMaps σ) /\
  (loaderFails (fs i) ->
   programMaps σ' = programMaps σ /\ fileMaps σ' = fileMaps σ /\
   count isTransform (since σ σ') = 0 /\ count isCompile (since σ σ') = 0).

Definition behaves (st st' : State) : Prop :=
  evolves st st' /\ confined st.2 st.1 st'.1.

(** Every cached program is what the loader, the transformer and the
    compiler make of a specifier that resolves to its key, and every cached
    file is what the loader returns for such a specifier. *)
Definition soundCaches (σ : Store) : Prop :=
  (forall a k p,
     programsAt σ a !! k = Some p ->
     exists fs0 pwd0 name,
       Resolve pwd0 name = k /\ compileSource fs0 pwd0 name = Ok p) /\
  (forall a k d,
     filesAt σ a !! k = Some d ->
     exists fs0 pwd0 name data,
       Resolve pwd0 name = k /\ Load fs0 pwd0 name = Ok data /\ Data data = d).

End Loader.

(** ** A concrete loader, compiler and registry, with some scripts

    The packages [loader], [compiler] and [modules] are outside this file
    of the program; the instance below follows their contracts in the
    specification.  Paths are slash-separated; a specifier that starts with
    a slash is absolute, any other is relative to the current directory. *)

(** The position of the last slash of [s], counting from [pos]. *)
Fixpoint lastSlash (s : string) (pos : nat) (found : option nat) : option nat :=
  match s with
  | EmptyString => found
  | String c s' =>
      lastSlash s' (S pos) (if Ascii.eqb c "/"%char then Some pos else found)
  end.

(** Modelled from the spec: [DirOf(path) -> dirPath] of the path resolver
    ([loader.Dir]), deterministic and without side effects. *)
Definition dirOf (path : string) : string :=
  match lastSlash path 0 None with
  | Some 0 => "/"
  | Some n => String.substring 0 n path
  | None => "."
  end.

Definition joinPath (dir name : string) : string :=
  if String.eqb dir "/" then String.append "/" name
  else String.append dir (String.append "/" name).

(** Modelled from the spec: [Resolve(baseDir, specifier) -> canonicalPath]
    of the path resolver ([loader.Resolve]), deterministic and without side
    effects; it returns a path for every specifier. *)
Definition resolvePath (dir name : string) : string :=
  if String.prefix "/" name then name
  else if String.prefix "./" name
       then joinPath dir (String.substring 2 (String.length name - 2) name)
       else joinPath dir name.

(** Modelled from the spec: [Load(fs, baseDir, specifier)] of the source
    loader ([loader.Load]), which returns the bytes and the canonical path
    of the target and fails when the target is missing.  A filesystem is
    the content of each of its paths; without a filesystem nothing can be
    read. *)
Definition readFile (fs : option (gmap string (list Byte.byte))) (dir name : string)
    : result SourceData :=
  match fs with
  | None => Err (errorString "no filesystem")
  | Some content =>
      match content !! resolvePath dir name with
      | Some data => Ok (mkSourceData data (resolvePath dir name))
      | None =>
          Err (errorString (String.append "file not found: " (resolvePath dir name)))
      end
  end.

(** Script fragments. *)
Definition requireOrRethrow (arg : string) (k : option Value -> Program) : Program :=
  PRequire arg (fun r =>
    match r with
    | Ok v => k v
    | Err e => PThrow (GoError e)
    end).

Definition field (rt : Runtime) (v : option Value) (name : string) : option Value :=
  match v with
  | Some (Object l) => ObjectGet rt l name
  | _ => None
  end.

Definition setModuleExports (v : option Value) (rt : Runtime) : Runtime :=
  match Get rt "module" with
  | Some (Object m) => ObjectSet rt m "exports" (ToValue v)
  | _ => rt
  end.

(** [module.exports = { value: 1 };] *)
Definition libSource : string := "module.exports = { value: 1 };".
Definition libProgram : Program :=
  PEngine (fun rt =>
    let '(o, rt) := allocObject rt {[ "value" := Number 1 ]} in
    setModuleExports (Some (Object o)) rt) PDone.

(** The entry module of the scenario. *)
Definition mainSource : string :=
  "var x = require('./lib.js').value; require('./lib.js').value += 1;".
Definition mainProgram : Program :=
  requireOrRethrow "./lib.js" (fun v1 =>
    PEngine (fun rt => Set_ rt "x" (field rt v1 "value"))
      (requireOrRethrow "./lib.js" (fun v2 =>
         PEngine (fun rt =>
           match v2, field rt v2 "value" with
           | Some (Object l), Some (Number n) => ObjectSet rt l "value" (Number (n + 1))
           | _, _ => rt
           end) PDone))).

Definition throwsSource : string := "throw 'boom';".
Definition throwsProgram : Program := PThrow (Exception (Str "boom")).

Definition nestSource : string := "require('./sub/inner.js');".
Definition nestProgram : Program := requireOrRethrow "./sub/inner.js" (fun _ => PDone).

Definition innerSource : string := "require('./missing.js');".
Definition innerProgram : Program := requireOrRethrow "./missing.js" (fun _ => PDone).

Definition deepSource : string := "module.exports = require('./sub/mid.js');".
Definition deepProgram : Program :=
  requireOrRethrow "./sub/mid.js" (fun v => PEngine (setModuleExports v) PDone).

Definition midSource : string := "module.exports = require('./leaf.js');".
Definition midProgram : Program :=
  requireOrRethrow "./leaf.js" (fun v => PEngine (setModuleExports v) PDone).

Definition clobberSource : string := "exports = 1; module = 2;".
Definition clobberProgram : Program :=
  PEngine (fun rt => Set_ (Set_ rt "exports" (Some (Number 1))) "module" (Some (Number 2)))
          PDone.

(** A module that catches the failure of a nested load and records it on
    its exports object (scripts are compiled in strict mode: an assignment
    to an undeclared name would throw). *)
Definition guardedSource : string :=
  "try { require('./missing.js'); } catch (e) { exports.seen = 'caught'; }".
Definition guardedProgram : Program :=
  PRequire "./missing.js" (fun r =>
    match r with
    | Ok _ => PDone
    | Err _ =>
        PInspect (fun rt =>
          match Get rt "exports" with
          | Some (Object e) =>
              PEngine (fun rt => ObjectSet rt e "seen" (Str "caught")) PDone
          | _ => PThrow (Exception (Str "TypeError"))
          end)
    end).

Definition compiled : list (string * Program) :=
  [ (libSource, libProgram); (mainSource, mainProgram);
    (throwsSource, throwsProgram); (nestSource, nestProgram);
    (innerSource, innerProgram); (deepSource, deepProgram);
    (midSource, midProgram); (clobberSource, clobberProgram);
    (guardedSource, guardedProgram) ].

Fixpoint lookupSource (table : list (string * Program)) (code : string) : option Program :=
  match table with
  | [] => None
  | (c, p) :: table' => if String.eqb c code then Some p else lookupSource table' code
  end.

(** Modelled from the spec: [Transform(sourceText, filename)] of the
    compiler, here the identity on every source but the ones that start
    with [#!], and the engine's compiler, here a table of known sources. *)
Definition transformSource (code filename : string) : result string :=
  if String.prefix "#!" code then Err (errorString "transform failed") else Ok code.

Definition compileScript (filename code : string) (strict : bool) : result Program :=
  match lookupSource compiled code with
  | Some p => Ok p
  | None => Err (errorString (String.append "SyntaxError: " filename))
  end.

Definition collab0 : Collaborators := {|
  Fs := gmap string (list Byte.byte);
  Resolve := resolvePath;
  Dir := dirOf;
  Load := readFile;
  Transform := transformSource;
  Compile := compileScript;
  NativeModule := gmap string Value;
  Index := {[ "k6" := {[ "version" := Number 1 ]};
              "k6/http" := {[ "status" := Number 200 ]} ]};
  Bind := fun _ md _ => md
|}.

Definition disk : gmap string (list Byte.byte) :=
  list_to_map
    [ ("/t/lib.js", list_byte_of_string libSource);
      ("/t/main.js", list_byte_of_string mainSource);
      ("/t/throws.js", list_byte_of_string throwsSource);
      ("/t/nest.js", list_byte_of_string nestSource);
      ("/t/sub/inner.js", list_byte_of_string innerSource);
      ("/t/deep.js", list_byte_of_string deepSource);
      ("/t/sub/mid.js", list_byte_of_string midSource);
      ("/t/sub/leaf.js", list_byte_of_string libSource);
      ("/t/clobber.js", list_byte_of_string clobberSource);
      ("/t/guarded.js", list_byte_of_string guardedSource);
      ("/t/bad.js", list_byte_of_string "function (");
      ("/t/raw.js", list_byte_of_string "#!/bin/sh");
      ("/t/a.txt", list_byte_of_string "hello") ].

(** The base context over [disk], in directory [/t], with [exports] and
    [module] bound the way the loader binds them. *)
Definition rt0 : Runtime := (enterScope (mkRuntime ∅ ∅)).2.

Definition st0 : @State collab0 :=
  let '(i, σ) := @NewInitContext collab0 (mkStore ∅ ∅ ∅ []) rt0 0 (Some disk) "/t" in
  (σ, i).

Definition Require0 := @Require collab0.
Definition Open0 := @Open collab0.

(** Reading the outcome of a call: whether it returned a value, the value,
    the error, and the state it left ([st] itself when the call was cut
    off). *)
Definition returnsOk {A S} (out : option (result A * S)) : bool :=
  match out with
  | Some (Ok _, _) => true
  | _ => false
  end.

Definition valueOf {A S} (d : A) (out : option (result A * S)) : A :=
  match out with
  | Some (Ok v, _) => v
  | _ => d
  end.

Definition errorOf {A S} (out : option (result A * S)) : option error :=
  match out with
  | Some (Err e, _) => Some e
  | _ => None
  end.

Definition after {A S} (st : S) (out : option (A * S)) : S :=
  match out with
  | Some (_, st') => st'
  | None => st
  end.

(** [st0] after the entry module has been loaded. *)
Definition stWarm : @State collab0 := after st0 (Require0 3 st0 "./main.js").

(** A replica of the warm base context, with a runtime of its own. *)
Definition stBound : @State collab0 :=
  (stWarm.1, @newBoundInitContext collab0 stWarm.2 1 rt0).

(** The warm base context after [/t/lib.js] was removed from the disk. *)
Definition stRemoved : @State collab0 :=
  (stWarm.1,
   @mkInitContext collab0 (runtime stWarm.2) (ctxPtr stWarm.2)
     (Some (delete "/t/lib.js" disk)) (pwd stWarm.2)
     (programs stWarm.2) (files stWarm.2) (Console stWarm.2)).




(** A second base context, made on the store of [st0]. *)
Definition stSecond : @State collab0 :=
  let '(i, σ) := @NewInitContext collab0 st0.1 rt0 2 (Some disk) "/t" in
  (σ, i).

(** [st0] with the module [open('./leaf.js');] cached as
    [/t/sub/reader.js]. *)
Definition readerProgram : Program := POpen "./leaf.js" (fun _ => PDone).

Definition stReader : @State collab0 :=
  (setProgram st0.1 (programs st0.2) "/t/sub/reader.js"
     (mkProgramWithSource readerProgram "open('./leaf.js');"),
   st0.2).

(** * Properties *)

Section Properties.

Context `{Collaborators}.

Implicit Types (st : State) (σ : Store) (i : InitContext) (t : list Event).

(** ** The log *)

Lemma since_app σ σ' t : calls σ' = (calls σ ++ t)%list -> since σ σ' = t.
Proof. intros E. unfold since. rewrite E. apply drop_app_length. Qed.

Lemma count_app p t1 t2 : count p (t1 ++ t2)%list = count p t1 + count p t2.
Proof. unfold count. by rewrite List.filter_app, length_app. Qed.

Lemma count_cons p e t : count p (e :: t) = (if p e then 1 else 0) + count p t.
Proof. unfold count. simpl. by destruct (p e). Qed.

Lemma count_none p t : Forall (fun e => p e = false) t -> count p t = 0.
Proof.
  unfold count. induction 1 as [|e t He _ IH]; [done|].
  simpl. by rewrite He.
Qed.

(** Events about a path that is in the module cache are not pipeline
    events of that path. *)
Lemma onMiss_cached st t f p :
  programsAt st.1 (programs st.2) !! f = Some p ->
  Forall (onMiss st) t ->
  count (isLoadOf InRequireFile f) t = 0 /\
  count (isTransformOf f) t = 0 /\
  count (isCompileOf f) t = 0.
Proof.
  intros Hin Ht.
  split; [|split]; apply count_none; eapply Forall_impl; try exact Ht;
    intros e He; destruct e as [[] g ? ?|g ? ?|g ? ?|g]; simpl in *; try done;
    destruct (String.eqb_spec g f) as [->|]; congruence.
Qed.

(** ** [evolves] is a preorder *)

Lemma sameContext_refl i : sameContext i i.
Proof. by repeat split. Qed.

Lemma sameContext_trans i1 i2 i3 :
  sameContext i1 i2 -> sameContext i2 i3 -> sameContext i1 i3.
Proof.
  intros (?&?&?&?&?&?) (?&?&?&?&?&?). repeat split; congruence.
Qed.

Lemma sameContext_setRuntime i rt : sameContext i (setRuntime rt i).
Proof. by repeat split. Qed.

Lemma cachesGrow_refl σ : cachesGrow σ σ.
Proof. by split. Qed.

Lemma cachesGrow_trans σ1 σ2 σ3 :
  cachesGrow σ1 σ2 -> cachesGrow σ2 σ3 -> cachesGrow σ1 σ3.
Proof. intros [A1 B1] [A2 B2]. split; eauto. Qed.

Lemma cachesGrow_logCall σ e : cachesGrow σ (logCall e σ).
Proof. by split. Qed.

Lemma programsAt_setProgram σ a k p a' k' :
  programsAt (setProgram σ a k p) a' !! k' =
  if decide (a = a' /\ k = k') then Some p else programsAt σ a' !! k'.
Proof.
  unfold programsAt at 1, setProgram. simpl.
  destruct (decide (a = a')) as [->|Ha].
  - rewrite lookup_insert_eq. simpl.
    destruct (decide (k = k')) as [->|Hk].
    + rewrite lookup_insert_eq. by rewrite decide_True.
    + rewrite lookup_insert_ne by done. rewrite decide_False by tauto. done.
  - rewrite lookup_insert_ne by done. rewrite decide_False by tauto. done.
Qed.

Lemma filesAt_setFile σ a k d a' k' :
  filesAt (setFile σ a k d) a' !! k' =
  if decide (a = a' /\ k = k') then Some d else filesAt σ a' !! k'.
Proof.
  unfold filesAt at 1, setFile. simpl.
  destruct (decide (a = a')) as [->|Ha].
  - rewrite lookup_insert_eq. simpl.
    destruct (decide (k = k')) as [->|Hk].
    + rewrite lookup_insert_eq. by rewrite decide_True.
    + rewrite lookup_insert_ne by done. rewrite decide_False by tauto. done.
  - rewrite lookup_insert_ne by done. rewrite decide_False by tauto. done.
Qed.

Lemma cachesGrow_setProgram σ a k p :
  programsAt σ a !! k = None -> cachesGrow σ (setProgram σ a k p).
Proof.
  intros Hmiss. split; [|done].
  intros a' k' p' Hin. rewrite programsAt_setProgram.
  case_decide as Heq; [|done]. destruct Heq as [-> ->]. congruence.
Qed.

Lemma cachesGrow_setFile σ a k d :
  filesAt σ a !! k = None -> cachesGrow σ (setFile σ a k d).
Proof.
  intros Hmiss. split; [done|].
  intros a' k' p' Hin. rewrite filesAt_setFile.
  case_decide as Heq; [|done]. destruct Heq as [-> ->]. congruence.
Qed.

Lemma onMiss_earlier st st' e :
  sameContext st.2 st'.2 -> cachesGrow st.1 st'.1 -> onMiss st' e -> onMiss st e.
Proof.
  intros (_&_&_&Hp&Hf&_) [Gp Gf].
  destruct e as [[] g ? ?|g ? ?|g ? ?|g]; simpl; try done; rewrite ?Hp, ?Hf; intros Hnone.
  - destruct (programsAt st.1 (programs st.2) !! g) eqn:E; [|done].
    apply Gp in E. congruence.
  - destruct (filesAt st.1 (files st.2) !! g) eqn:E; [|done].
    apply Gf in E. congruence.
  - destruct (programsAt st.1 (programs st.2) !! g) eqn:E; [|done].
    apply Gp in E. congruence.
  - destruct (programsAt st.1 (programs st.2) !! g) eqn:E; [|done].
    apply Gp in E. congruence.
Qed.

Lemma evolves_refl st : evolves st st.
Proof.
  split; [apply sameContext_refl|]. split; [apply cachesGrow_refl|].
  exists []. by rewrite app_nil_r.
Qed.

Lemma evolves_trans st1 st2 st3 : evolves st1 st2 -> evolves st2 st3 -> evolves st1 st3.
Proof.
  intros (C1 & G1 & t1 & E1 & F1) (C2 & G2 & t2 & E2 & F2).
  split; [by eapply sameContext_trans|]. split; [by eapply cachesGrow_trans|].
  exists (t1 ++ t2)%list. split.
  - rewrite E2, E1. by rewrite app_assoc.
  - apply Forall_app. split; [done|].
    eapply Forall_impl; [exact F2|]. intros e. by apply onMiss_earlier.
Qed.

(** ** What a call does to the store and to the context *)

Lemma Open_evolves st name r st' : Open st name = (r, st') -> evolves st st'.
Proof.
  destruct st as [σ i]. unfold Open.
  destruct (filesAt σ (files i) !! Resolve (pwd i) name) as [d|] eqn:Hc.
  { intros [= <- <-]. apply evolves_refl. }
  destruct (Load (fs i) (pwd i) name) as [data|e]; intros [= <- <-].
  - split; [apply sameContext_refl|]. split.
    + simpl. eapply cachesGrow_trans; [apply cachesGrow_logCall|].
      by apply cachesGrow_setFile.
    + eexists. split; [reflexivity|]. repeat constructor. done.
  - split; [apply sameContext_refl|]. split; [apply cachesGrow_logCall|].
    eexists. split; [reflexivity|]. repeat constructor. done.
Qed.

Lemma loadProgram_hit σ i pwd0 name f p :
  programsAt σ (programs i) !! f = Some p ->
  loadProgram σ i pwd0 name f = (Ok p, σ).
Proof. intros Hc. unfold loadProgram. by rewrite Hc. Qed.

(** On a miss that compiles: the three collaborators are called once
    each, in order, and the program is cached under the canonical path. *)
Lemma loadProgram_miss_ok σ i pwd0 name f p :
  programsAt σ (programs i) !! f = None ->
  compileSource (fs i) pwd0 name = Ok p ->
  exists data,
    Load (fs i) pwd0 name = Ok data /\
    loadProgram σ i pwd0 name f =
      (Ok p,
       setProgram
         (logCall (EvCompile f (Filename data) (src p))
            (logCall (EvTransform f (string_of_list_byte (Data data)) (Filename data))
               (logCall (EvLoad InRequireFile f pwd0 name) σ)))
         (programs i) f p).
Proof.
  intros Hc. unfold compileSource, loadProgram. rewrite Hc.
  destruct (Load (fs i) pwd0 name) as [data|]; [|done].
  destruct (Transform _ _) as [code|]; [|done].
  destruct (Compile _ _ _) as [p_|]; [|done].
  intros [= <-]. by exists data.
Qed.

(** On a miss that fails: the error is returned, the maps are as they
    were, and the log grew by the calls made, the first of which is the
    call of the loader. *)
Lemma loadProgram_miss_err σ i pwd0 name f e :
  programsAt σ (programs i) !! f = None ->
  compileSource (fs i) pwd0 name = Err e ->
  exists σ' t,
    loadProgram σ i pwd0 name f = (Err e, σ') /\
    programMaps σ' = programMaps σ /\ fileMaps σ' = fileMaps σ /\
    consoles σ' = consoles σ /\
    calls σ' = (calls σ ++ EvLoad InRequireFile f pwd0 name :: t)%list /\
    count (isLoadOf InRequireFile f) t = 0.
Proof.
  intros Hc. unfold compileSource, loadProgram. rewrite Hc.
  destruct (Load (fs i) pwd0 name) as [data|].
  2:{ intros [= <-]. eexists _, []. by repeat split. }
  destruct (Transform _ _) as [code|].
  2:{ intros [= <-]. eexists _, [_]. repeat split; try done; simpl.
      - by rewrite <- app_assoc.
      - done. }
  destruct (Compile _ _ _) as [p_|]; [done|].
  intros [= <-]. eexists _, [_; _]. repeat split; try done; simpl.
  - by rewrite <- !app_assoc.
  - done.
Qed.

Lemma loadProgram_evolves σ i pwd0 name f r σ' :
  loadProgram σ i pwd0 name f = (r, σ') -> evolves (σ, i) (σ', i).
Proof.
  destruct (programsAt σ (programs i) !! f) as [p|] eqn:Hc.
  { rewrite (loadProgram_hit _ _ _ _ _ _ Hc). intros [= <- <-]. apply evolves_refl. }
  unfold loadProgram. rewrite Hc. intros Hlp.
  split; [apply sameContext_refl|]. revert Hlp.
  destruct (Load (fs i) pwd0 name) as [data|].
  2:{ intros [= <- <-]. split; [apply cachesGrow_logCall|].
      eexists. split; [reflexivity|]. by repeat constructor. }
  destruct (Transform _ _) as [code|].
  2:{ intros [= <- <-]. split; [done|]. simpl.
      eexists [_; _]. split; [by rewrite <- app_assoc|]. by repeat constructor. }
  destruct (Compile _ _ _) as [p_|]; intros [= <- <-].
  - split; [by apply (cachesGrow_setProgram σ)|]. simpl.
    eexists [_; _; _]. split; [by rewrite <- !app_assoc|]. by repeat constructor.
  - split; [done|]. simpl.
    eexists [_; _; _]. split; [by rewrite <- !app_assoc|]. by repeat constructor.
Qed.

Lemma requireModule_frame i name r i' :
  requireModule i name = (r, i') ->
  sameContext i i' /\ globalObject (runtime i') = globalObject (runtime i).
Proof.
  unfold requireModule. destruct (Index !! name) as [md|].
  - intros [= <- <-]. split; [apply sameContext_setRuntime|done].
  - intros [= <- <-]. split; [apply sameContext_refl|done].
Qed.

Section Nested.

Variable require : State -> string -> option (result (option Value) * State).
Hypothesis require_evolves :
  forall st arg r st', require st arg = Some (r, st') -> evolves st st'.

Lemma RunProgram_evolves p : forall st r st',
  RunProgram require p st = Some (r, st') -> evolves st st'.
Proof.
  induction p as [|e|f k IH|k IH|arg k IH|arg k IH]; intros st r st'; simpl.
  - intros [= <- <-]. apply evolves_refl.
  - intros [= <- <-]. apply evolves_refl.
  - intros Hrun. apply IH in Hrun. destruct st as [σ i].
    eapply evolves_trans; [|exact Hrun].
    split; [apply sameContext_setRuntime|]. split; [apply cachesGrow_refl|].
    exists []. by rewrite app_nil_r.
  - apply IH.
  - destruct (require st arg) as [[r1 st1]|] eqn:Hreq; [|done].
    intros Hrun. eapply evolves_trans; [by eapply require_evolves|by eapply IH].
  - destruct (Open st arg) as [r1 st1] eqn:Hopen.
    intros Hrun. eapply evolves_trans; [by eapply Open_evolves|by eapply IH].
Qed.

(** The shape of every return of [requireFile]: the context is the one the
    load ended with, after the deferred statements; the load either failed
    before the program was run, or ran it. *)
Lemma requireFileWith_inv σ i name r st' :
  requireFileWith require (σ, i) name = Some (r, st') ->
  let f := Resolve (pwd i) name in
  let i1 := setRuntime (enterScope (runtime i)).2 (setPwd (Dir f) i) in
  exists i2,
    st'.2 = leaveScope (pwd i) (Get (runtime i) "exports") (Get (runtime i) "module") i2 /\
    ((exists e, loadProgram σ i1 (pwd i) name f = (Err e, st'.1) /\
                r = Err e /\ i2 = i1) \/
     (exists p σ1 rr,
        loadProgram σ i1 (pwd i) name f = (Ok p, σ1) /\
        RunProgram require (pgm p) (logCall (EvRunProgram f) σ1, i1)
          = Some (rr, (st'.1, i2)) /\
        r = match rr with
            | Ok _ => Ok (ObjectGet (runtime i2) (enterScope (runtime i)).1.2 "exports")
            | Err e => Err e
            end)).
Proof.
  unfold requireFileWith. simpl.
  destruct (enterScope (runtime i)) as [[ex md] rt1] eqn:Hes. simpl.
  destruct (loadProgram _ _ _ _ _) as [[p|e] σ1] eqn:Hlp.
  - destruct (RunProgram _ _ _) as [[[u|e] [σ2 i2]]|] eqn:Hrun; [| |done].
    + intros [= <- <-]. exists i2. split; [done|]. right.
      exists p, σ1, (Ok u). by repeat split.
    + intros [= <- <-]. exists i2. split; [done|]. right.
      exists p, σ1, (Err e). by repeat split.
  - intros [= <- <-]. eexists. split; [done|]. left. by exists e.
Qed.

Lemma requireFileWith_evolves st name r st' :
  requireFileWith require st name = Some (r, st') -> evolves st st'.
Proof.
  destruct st as [σ i]. intros Hreq.
  destruct (requireFileWith_inv _ _ _ _ _ Hreq) as (i2 & Hi & Hcases).
  destruct st' as [σ' i']. simpl in Hi, Hcases. subst i'. clear Hreq.
  assert (Hin : forall σa σb ib,
             evolves (σa, setRuntime (enterScope (runtime i)).2
                            (setPwd (Dir (Resolve (pwd i) name)) i)) (σb, ib) ->
             evolves (σa, i)
               (σb, leaveScope (pwd i) (Get (runtime i) "exports")
                      (Get (runtime i) "module") ib)).
  { intros σa σb ib (C & G & t & E & F). split; [|split].
    - destruct C as (?&?&?&?&?&?). by repeat split.
    - done.
    - exists t. split; [done|]. eapply Forall_impl; [exact F|].
      intros e. by destruct e as [[] ? ? ?|? ? ?|? ? ?|?]. }
  destruct Hcases as [(e & Hlp & -> & ->)|(p & σ1 & rr & Hlp & Hrun & ->)].
  - apply loadProgram_evolves in Hlp. by apply Hin.
  - apply loadProgram_evolves in Hlp. apply RunProgram_evolves in Hrun.
    apply Hin. eapply evolves_trans; [exact Hlp|].
    eapply evolves_trans; [|exact Hrun].
    split; [apply sameContext_refl|]. split; [apply cachesGrow_logCall|].
    exists [EvRunProgram (Resolve (pwd i) name)]. split; [done|]. by repeat constructor.
Qed.

End Nested.

Lemma RequireWith_evolves requireFile :
  (forall st name r st', requireFile st name = Some (r, st') -> evolves st st') ->
  forall st arg r st', RequireWith requireFile st arg = Some (r, st') -> evolves st st'.
Proof.
  intros Hrf st arg r st'. unfold RequireWith.
  destruct (isBuiltin arg); [|apply Hrf].
  destruct (requireModule st.2 arg) as [r1 i1] eqn:Hrm. intros [= <- <-].
  apply requireModule_frame in Hrm as [C _].
  split; [done|]. split; [apply cachesGrow_refl|].
  exists []. by rewrite app_nil_r.
Qed.

Lemma requireFile_evolves fuel : forall st name r st',
  requireFile fuel st name = Some (r, st') -> evolves st st'.
Proof.
  induction fuel as [|fuel IH]; intros st name r st'; simpl; [done|].
  apply requireFileWith_evolves. by apply RequireWith_evolves.
Qed.

Lemma Require_evolves fuel st arg r st' :
  Require fuel st arg = Some (r, st') -> evolves st st'.
Proof. apply RequireWith_evolves, requireFile_evolves. Qed.

Lemma later_evolves st st' : later st st' -> evolves st st'.
Proof.
  induction 1 as [st|fuel st arg r st1 st2 Hreq _ IH|st name r st1 st2 Hopen _ IH].
  - apply evolves_refl.
  - eapply evolves_trans; [by eapply Require_evolves|exact IH].
  - eapply evolves_trans; [by eapply Open_evolves|exact IH].
Qed.

Lemma requireFile_S fuel st name :
  requireFile (S fuel) st name = requireFileWith (RequireWith (requireFile fuel)) st name.
Proof. done. Qed.

Lemma Require_file fuel st arg :
  isBuiltin arg = false -> Require fuel st arg = requireFile fuel st arg.
Proof. intros Hb. unfold Require, RequireWith. by rewrite Hb. Qed.

(** ** The export scope *)

Lemma enterScope_fresh rt :
  let e := (enterScope rt).1.1 in
  let m := (enterScope rt).1.2 in
  let rt1 := (enterScope rt).2 in
  (e ∉ dom (heap rt)) /\ (m ∉ dom (heap rt)) /\ e <> m /\
  Get rt1 "exports" = Some (Object e) /\
  Get rt1 "module" = Some (Object m) /\
  ObjectGet rt1 m "exports" = Some (Object e) /\
  heap rt1 !! e = Some ∅.
Proof.
  unfold enterScope, NewObject, allocObject, Get, ObjectGet, ObjectSet, Set_. simpl.
  set (e := fresh (dom (heap rt))).
  set (m := fresh (dom (<[e:=∅]> (heap rt)))).
  assert (He : e ∉ dom (heap rt)) by apply is_fresh.
  assert (Hm : m ∉ dom (<[e:=∅]> (heap rt))) by apply is_fresh.
  rewrite dom_insert_L in Hm.
  assert (Hne : e <> m) by set_solver.
  repeat split; try done.
  - set_solver.
  - rewrite lookup_insert_ne by done. by rewrite lookup_insert_eq.
  - by rewrite lookup_insert_eq.
  - rewrite lookup_insert_eq. simpl. by rewrite lookup_insert_eq.
  - rewrite lookup_insert_ne by done. rewrite lookup_insert_ne by done.
    by rewrite lookup_insert_eq.
Qed.

Lemma enterScope_objects rt :
  let e := (enterScope rt).1.1 in
  let m := (enterScope rt).1.2 in
  (e ∉ dom (heap rt)) /\ (m ∉ dom (heap rt)) /\
  heap (enterScope rt).2 !! e = Some ∅ /\
  heap (enterScope rt).2 !! m = Some {[ "exports" := Object e ]}.
Proof.
  destruct (enterScope_fresh rt) as (He & Hm & Hne & _ & _ & _ & Hobj).
  split_and!; try done.
  unfold enterScope, NewObject, allocObject, ObjectSet, Set_. simpl.
  rewrite lookup_insert_eq. f_equal. rewrite lookup_insert_eq. simpl.
  by rewrite insert_empty.
Qed.

Lemma leaveScope_exports pwd0 oe om i :
  Get (runtime (leaveScope pwd0 oe om i)) "exports" = Some (ToValue oe).
Proof. unfold leaveScope, Get, Set_. simpl. by rewrite lookup_insert_eq. Qed.

Lemma leaveScope_module pwd0 oe om i :
  Get (runtime (leaveScope pwd0 oe om i)) "module" = Some (ToValue om).
Proof.
  unfold leaveScope, Get, Set_. simpl.
  rewrite lookup_insert_ne by done. by rewrite lookup_insert_eq.
Qed.

(** After [requireFile] returns, however it returns, the two bindings hold
    what they held before, converted by [ToValue]. *)
Lemma requireFile_bindings fuel st name r st' :
  requireFile fuel st name = Some (r, st') ->
  Get (runtime st'.2) "exports" = Some (ToValue (Get (runtime st.2) "exports")) /\
  Get (runtime st'.2) "module" = Some (ToValue (Get (runtime st.2) "module")).
Proof.
  destruct fuel as [|fuel]; [done|]. destruct st as [σ i]. simpl.
  intros Hreq. apply requireFileWith_inv in Hreq as (i2 & -> & _).
  split; [apply leaveScope_exports|apply leaveScope_module].
Qed.

(** A binding that was absent before the call is therefore bound to
    [null] after it. *)
Lemma requireFile_unbound_exports fuel st name r st' :
  Get (runtime st.2) "exports" = None ->
  requireFile fuel st name = Some (r, st') ->
  Get (runtime st'.2) "exports" = Some Null.
Proof.
  intros Hnone Hreq. apply requireFile_bindings in Hreq as [He _].
  by rewrite Hnone in He.
Qed.

(** ** More fuel changes no result *)

Section Mono.

Variables require1 require2 : State -> string -> option (result (option Value) * State).
Hypothesis require_mono :
  forall st arg x, require1 st arg = Some x -> require2 st arg = Some x.



End Mono.



(** ** Properties of [Require] and [Open] *)

(** C2. For every call to [Require] on a file path, whatever the loaded
    program does (it may itself call [require] and [open], to any depth) and
    however the call ends (the value returned, or the error of the loader,
    the compiler or the execution), [pwd] after the call is [pwd] before
    it. *)
Theorem require_restores_pwd fuel st arg r st' :
  isBuiltin arg = false ->
  Require fuel st arg = Some (r, st') ->
  pwd st'.2 = pwd st.2.
Proof.
  intros _ Hreq. apply Require_evolves in Hreq as [(_&_&Hpwd&_) _]. exact Hpwd.
Qed.

(** The same for a whole program: a sequence of engine steps and of nested
    [require] and [open] calls leaves [pwd] as it was. *)
Lemma RunProgram_restores_pwd fuel p st r st' :
  RunProgram (Require fuel) p st = Some (r, st') -> pwd st'.2 = pwd st.2.
Proof.
  intros Hrun. eapply RunProgram_evolves in Hrun as [(_&_&Hpwd&_) _]; [done|].
  intros ? ? ? ?. apply Require_evolves.
Qed.


(** C5. [Require] of a specifier of the reserved namespace ("k6", or with
    the prefix "k6/") that the registry does not have fails with the
    unknown-builtin-module error and leaves the whole state, so the module
    cache and the file cache, as it was. *)
Theorem unknown_builtin_fails fuel st arg :
  isBuiltin arg = true ->
  Index !! arg = None ->
  Require fuel st arg = Some (Err (unknownBuiltinModule arg), st).
Proof.
  intros Hb Hidx. unfold Require, RequireWith, requireModule.
  rewrite Hb, Hidx. by destruct st.
Qed.

(** C10. [Require] of a specifier of the reserved namespace always returns,
    with the bound module or with the unknown-builtin-module error, and in
    both cases [pwd], every global binding ([exports] and [module] among
    them), the module caches and the file caches are as before the call. *)
Theorem builtin_require_frame fuel st arg :
  isBuiltin arg = true ->
  exists r st',
    Require fuel st arg = Some (r, st') /\
    (isOk r = false <-> Index !! arg = None) /\
    pwd st'.2 = pwd st.2 /\
    globalObject (runtime st'.2) = globalObject (runtime st.2) /\
    Get (runtime st'.2) "exports" = Get (runtime st.2) "exports" /\
    Get (runtime st'.2) "module" = Get (runtime st.2) "module" /\
    programMaps st'.1 = programMaps st.1 /\
    fileMaps st'.1 = fileMaps st.1.
Proof.
  intros Hb. unfold Require, RequireWith, requireModule. rewrite Hb.
  destruct st as [σ i]. simpl.
  destruct (Index !! arg) as [md|]; simpl.
  - eexists _, _. split; [reflexivity|]. simpl. by repeat split.
  - eexists _, _. split; [reflexivity|]. simpl. by repeat split.
Qed.

(** C8. Two [Open] calls from the same directory whose specifiers resolve
    to the same canonical path, the first of which finds the path missing
    from the file cache and succeeds: both return the same content, the
    loader is called exactly once, by the first call, and the second call
    leaves the state as it is. *)
Theorem open_loads_once st name1 name2 content st1 :
  Resolve (pwd st.2) name2 = Resolve (pwd st.2) name1 ->
  filesAt st.1 (files st.2) !! Resolve (pwd st.2) name1 = None ->
  Open st name1 = (Ok content, st1) ->
  Open st1 name2 = (Ok content, st1) /\
  since st.1 st1.1 = [EvLoad InOpen (Resolve (pwd st.2) name1) (pwd st.2) name1] /\
  count (isLoadOf InOpen (Resolve (pwd st.2) name1))
        (since st.1 (Open st1 name2).2.1) = 1.
Proof.
  destruct st as [σ i]. simpl. intros Hsame Hmiss. unfold Open at 1. rewrite Hmiss.
  destruct (Load (fs i) (pwd i) name1) as [data|e] eqn:Hload; [|done].
  intros [= <- <-].
  assert (Hagain : Open (setFile (logCall (EvLoad InOpen (Resolve (pwd i) name1)
                                    (pwd i) name1) σ) (files i)
                           (Resolve (pwd i) name1) (Data data), i) name2
                   = (Ok (string_of_list_byte (Data data)),
                      (setFile (logCall (EvLoad InOpen (Resolve (pwd i) name1)
                                    (pwd i) name1) σ) (files i)
                           (Resolve (pwd i) name1) (Data data), i))).
  { unfold Open. rewrite Hsame, filesAt_setFile. by rewrite decide_True. }
  split; [done|]. split; [by apply since_app|].
  rewrite Hagain. simpl.
  erewrite since_app by reflexivity. unfold count. simpl.
  by rewrite String.eqb_refl.
Qed.

(** ** The log of a load *)

Lemma onMiss_logCall σ i e ev : onMiss (logCall ev σ, i) e -> onMiss (σ, i) e.
Proof. by destruct e as [[] ? ? ?|? ? ?|? ? ?|?]. Qed.

Lemma onMiss_context σ i i' e :
  programs i' = programs i -> files i' = files i -> onMiss (σ, i') e -> onMiss (σ, i) e.
Proof. intros Hp Hf. destruct e as [[] ? ? ?|? ? ?|? ? ?|?]; simpl; congruence. Qed.

(** A load of a cached path: the program is run, and whatever else is
    logged is about paths that are not cached. *)
Lemma requireFile_hit_log fuel σ i name p r st' :
  programsAt σ (programs i) !! Resolve (pwd i) name = Some p ->
  requireFile fuel (σ, i) name = Some (r, st') ->
  exists t,
    calls st'.1 = (calls σ ++ EvRunProgram (Resolve (pwd i) name) :: t)%list /\
    Forall (onMiss (σ, i)) t.
Proof.
  intros Hhit Hreq. destruct fuel as [|fuel]; [done|]. simpl in Hreq.
  apply requireFileWith_inv in Hreq as (i2 & _ & Hcases).
  rewrite (loadProgram_hit _ _ _ _ _ p) in Hcases by done.
  destruct Hcases as [(e & [=] & _)|(p' & σ1 & rr & [= <- <-] & Hrun & _)].
  eapply RunProgram_evolves in Hrun as (_ & _ & t & E & F).
  2:{ intros ? ? ? ?. apply (Require_evolves fuel). }
  simpl in E. exists t. split.
  - rewrite E. by rewrite <- app_assoc.
  - eapply Forall_impl; [exact F|]. intros e He.
    apply onMiss_logCall in He. by eapply onMiss_context in He.
Qed.

(** A load of a path that is missing from the cache and compiles: the
    loader, the transformer and the compiler are called, the program is run,
    and nothing logged after that is about the path. *)
Lemma requireFile_miss_log fuel σ i name p r st' :
  let f := Resolve (pwd i) name in
  programsAt σ (programs i) !! f = None ->
  compileSource (fs i) (pwd i) name = Ok p ->
  requireFile fuel (σ, i) name = Some (r, st') ->
  exists data t,
    calls st'.1 =
      (calls σ ++ [EvLoad InRequireFile f (pwd i) name;
                   EvTransform f (string_of_list_byte (Data data)) (Filename data);
                   EvCompile f (Filename data) (src p);
                   EvRunProgram f] ++ t)%list /\
    count (isLoadOf InRequireFile f) t = 0 /\
    count (isTransformOf f) t = 0 /\
    count (isCompileOf f) t = 0 /\
    programsAt st'.1 (programs i) !! f = Some p.
Proof.
  intros f Hmiss Hcs Hreq. destruct fuel as [|fuel]; [done|]. simpl in Hreq.
  apply requireFileWith_inv in Hreq as (i2 & _ & Hcases).
  destruct (loadProgram_miss_ok σ
              (setRuntime (enterScope (runtime i)).2 (setPwd (Dir f) i))
              (pwd i) name f p Hmiss Hcs) as (data & _ & Hlp).
  fold f in Hcases. rewrite Hlp in Hcases.
  destruct Hcases as [(e & [=] & _)|(p' & σ1 & rr & [= <- <-] & Hrun & _)].
  eapply RunProgram_evolves in Hrun as (_ & [G _] & t & E & F).
  2:{ intros ? ? ? ?. apply (Require_evolves fuel). }
  assert (Hin : programsAt
                  (logCall (EvRunProgram f)
                     (setProgram
                        (logCall (EvCompile f (Filename data) (src p))
                           (logCall (EvTransform f (string_of_list_byte (Data data))
                                       (Filename data))
                              (logCall (EvLoad InRequireFile f (pwd i) name) σ)))
                        (programs i) f p)) (programs i) !! f = Some p).
  { unfold logCall at 1. unfold programsAt at 1. simpl.
    rewrite lookup_insert_eq. simpl. by rewrite lookup_insert_eq. }
  simpl in E. exists data, t. split; [|split_and!].
  - rewrite E. by rewrite <- !app_assoc.
  - by eapply (onMiss_cached (_, _)) in F as (? & ? & ?).
  - by eapply (onMiss_cached (_, _)) in F as (? & ? & ?).
  - by eapply (onMiss_cached (_, _)) in F as (? & ? & ?).
  - by apply G.
Qed.

(** C1. A [Require] of a file path that is missing from the module cache
    and whose source loads, transforms and compiles, then, at once or after
    any further calls of the context, a [Require] whose specifier resolves
    to the same canonical path: from before the first call to after the
    later one, the loader, the transformer and the compiler are each called
    exactly once for that path, by the first call; the later call finds the
    program that the first call cached, and runs it. *)
Theorem require_compiles_once fuel1 fuel2 st name1 name2 p r1 st1 stL r2 st2 :
  let f := Resolve (pwd st.2) name1 in
  isBuiltin name1 = false ->
  isBuiltin name2 = false ->
  Resolve (pwd st.2) name2 = f ->
  programsAt st.1 (programs st.2) !! f = None ->
  compileSource (fs st.2) (pwd st.2) name1 = Ok p ->
  Require fuel1 st name1 = Some (r1, st1) ->
  later st1 stL ->
  Require fuel2 stL name2 = Some (r2, st2) ->
  (count (isLoadOf InRequireFile f) (since st.1 st2.1) = 1 /\
   count (isTransformOf f) (since st.1 st2.1) = 1 /\
   count (isCompileOf f) (since st.1 st2.1) = 1) /\
  (count (isLoadOf InRequireFile f) (since st1.1 st2.1) = 0 /\
   count (isTransformOf f) (since st1.1 st2.1) = 0 /\
   count (isCompileOf f) (since st1.1 st2.1) = 0) /\
  programsAt st1.1 (programs st1.2) !! f = Some p /\
  programsAt stL.1 (programs stL.2) !! f = Some p /\
  programsAt st2.1 (programs st2.2) !! f = Some p /\
  1 <= count (isRunOf f) (since stL.1 st2.1).
Proof.
  intros f Hb1 Hb2 Hsame Hmiss Hcs H1 HL H2.
  rewrite Require_file in H1, H2 by done.
  pose proof (requireFile_evolves _ _ _ _ _ H1) as ((_&_&Hpwd1&Hp1&_) & _ & _).
  pose proof (later_evolves _ _ HL)
    as ((_&_&HpwdL&HpL&_) & [GL _] & tm & Em & Fm).
  pose proof (requireFile_evolves _ _ _ _ _ H2) as ((_&_&_&Hp2&_) & [G2 _] & _).
  destruct st as [σ i]. cbn [fst snd] in *.
  destruct (requireFile_miss_log _ _ _ _ _ _ _ Hmiss Hcs H1)
    as (data & t1 & E1 & L1 & T1 & C1 & Hin1).
  fold f in E1, L1, T1, C1, Hin1.
  destruct st1 as [σ1 i1], stL as [σL iL]. cbn [fst snd] in *.
  assert (Hhit1 : programsAt (σ1, i1).1 (programs (σ1, i1).2) !! f = Some p).
  { cbn [fst snd]. by rewrite Hp1. }
  destruct (onMiss_cached _ _ _ _ Hhit1 Fm) as (Lm & Tm & Cm).
  assert (HhitL : programsAt σL (programs iL) !! Resolve (pwd iL) name2 = Some p).
  { rewrite HpwdL, Hpwd1, Hsame, HpL. by apply GL. }
  destruct (requireFile_hit_log _ _ _ _ _ _ _ HhitL H2) as (t2 & E2 & F2).
  rewrite HpwdL, Hpwd1, Hsame in E2, HhitL.
  destruct (onMiss_cached (σL, iL) _ _ _ HhitL F2) as (L2 & T2 & C2).
  rewrite (since_app σL st2.1 _ E2).
  rewrite Em in E2. rewrite <- app_assoc in E2. rewrite (since_app σ1 st2.1 _ E2).
  rewrite E1 in E2. rewrite <- app_assoc in E2. rewrite (since_app σ st2.1 _ E2).
  rewrite !count_app, !count_cons, L1, T1, C1, Lm, Tm, Cm, L2, T2, C2.
  simpl. rewrite !String.eqb_refl.
  split_and!; try done; try lia.
  rewrite Hp2. by apply G2.
Qed.

(** ** Failed loads *)


Lemma loadProgram_load_err σ i pwd0 name f e :
  programsAt σ (programs i) !! f = None ->
  Load (fs i) pwd0 name = Err e ->
  loadProgram σ i pwd0 name f = (Err e, logCall (EvLoad InRequireFile f pwd0 name) σ).
Proof. intros Hmiss E. unfold loadProgram. by rewrite Hmiss, E. Qed.

Lemma requireFileWith_err require σ i name e σ' :
  let f := Resolve (pwd i) name in
  let i1 := setRuntime (enterScope (runtime i)).2 (setPwd (Dir f) i) in
  loadProgram σ i1 (pwd i) name f = (Err e, σ') ->
  requireFileWith require (σ, i) name =
    Some (Err e, (σ', leaveScope (pwd i) (Get (runtime i) "exports")
                        (Get (runtime i) "module") i1)).
Proof.
  intros f i1. subst f i1. unfold requireFileWith. simpl.
  destruct (enterScope (runtime i)) as [[ex md] rt1]. simpl.
  by intros ->.
Qed.

(** A load of a missing path whose source does not load, transform or
    compile. *)
Lemma requireFile_miss_err fuel σ i name e :
  let f := Resolve (pwd i) name in
  let i1 := setRuntime (enterScope (runtime i)).2 (setPwd (Dir f) i) in
  programsAt σ (programs i) !! f = None ->
  compileSource (fs i) (pwd i) name = Err e ->
  exists σ' t,
    requireFile (S fuel) (σ, i) name =
      Some (Err e, (σ', leaveScope (pwd i) (Get (runtime i) "exports")
                          (Get (runtime i) "module") i1)) /\
    programMaps σ' = programMaps σ /\ fileMaps σ' = fileMaps σ /\
    consoles σ' = consoles σ /\
    calls σ' = (calls σ ++ EvLoad InRequireFile f (pwd i) name :: t)%list /\
    count (isLoadOf InRequireFile f) t = 0.
Proof.
  intros f i1 Hmiss Hcs.
  destruct (loadProgram_miss_err σ i1 (pwd i) name f e Hmiss Hcs)
    as (σ' & t & Hlp & Hrest).
  exists σ', t. split; [|exact Hrest].
  simpl. by apply requireFileWith_err.
Qed.

Lemma count_load_one f pwd0 name t :
  count (isLoadOf InRequireFile f) t = 0 ->
  count (isLoadOf InRequireFile f) (EvLoad InRequireFile f pwd0 name :: t) = 1.
Proof. intros E. rewrite count_cons, E. simpl. by rewrite String.eqb_refl. Qed.

(** C6. A [Require] of a path that is missing from the module cache and
    whose load, transform or compile step fails returns that error; no map
    of the store has changed, and of the context only [pwd] and the two
    bindings were put back (the objects made for the load stay where they
    are); the next [Require] of the path calls the loader again.  Likewise
    an [Open] whose load fails changes no map, and the next [Open] of the
    path calls the loader again. *)
Theorem failed_load_is_not_cached st name e :
  let f := Resolve (pwd st.2) name in
  (isBuiltin name = false ->
   programsAt st.1 (programs st.2) !! f = None ->
   compileSource (fs st.2) (pwd st.2) name = Err e ->
   forall fuel, exists st',
     Require (S fuel) st name = Some (Err e, st') /\
     programMaps st'.1 = programMaps st.1 /\ fileMaps st'.1 = fileMaps st.1 /\
     st'.2 = leaveScope (pwd st.2) (Get (runtime st.2) "exports")
               (Get (runtime st.2) "module")
               (setRuntime (enterScope (runtime st.2)).2 (setPwd (Dir f) st.2)) /\
     pwd st'.2 = pwd st.2 /\
     Get (runtime st'.2) "exports" = Some (ToValue (Get (runtime st.2) "exports")) /\
     Get (runtime st'.2) "module" = Some (ToValue (Get (runtime st.2) "module")) /\
     count (isLoadOf InRequireFile f) (since st.1 st'.1) = 1 /\
     exists st'',
       Require (S fuel) st' name = Some (Err e, st'') /\
       programMaps st''.1 = programMaps st.1 /\
       count (isLoadOf InRequireFile f) (since st'.1 st''.1) = 1) /\
  (filesAt st.1 (files st.2) !! f = None ->
   Load (fs st.2) (pwd st.2) name = Err e ->
   exists st',
     Open st name = (Err e, st') /\
     programMaps st'.1 = programMaps st.1 /\ fileMaps st'.1 = fileMaps st.1 /\
     st'.2 = st.2 /\
     count (isLoadOf InOpen f) (since st.1 st'.1) = 1 /\
     exists st'',
       Open st' name = (Err e, st'') /\
       fileMaps st''.1 = fileMaps st.1 /\
       count (isLoadOf InOpen f) (since st'.1 st''.1) = 1).
Proof.
  destruct st as [σ i]. simpl. split.
  - intros Hb Hmiss Hcs fuel. rewrite Require_file by done.
    destruct (requireFile_miss_err fuel σ i name e Hmiss Hcs)
      as (σ' & t & Hreq & Hpm & Hfm & _ & Hcalls & Hcount).
    eexists. split; [exact Hreq|]. cbn [fst snd].
    split_and!; try done.
    + apply leaveScope_exports.
    + apply leaveScope_module.
    + rewrite (since_app _ _ _ Hcalls). by apply count_load_one.
    + rewrite Require_file by done.
      set (i' := leaveScope _ _ _ _).
      assert (Hmiss' : programsAt σ' (programs i') !! Resolve (pwd i') name = None).
      { unfold programsAt. rewrite Hpm. exact Hmiss. }
      destruct (requireFile_miss_err fuel σ' i' name e Hmiss' Hcs)
        as (σ'' & t' & Hreq' & Hpm' & _ & _ & Hcalls' & Hcount').
      eexists. split; [exact Hreq'|]. cbn [fst snd]. split; [congruence|].
      rewrite (since_app _ _ _ Hcalls'). by apply count_load_one.
  - intros Hmiss Hload.
    assert (Hopen : forall σ0, fileMaps σ0 = fileMaps σ ->
              Open (σ0, i) name =
                (Err e, (logCall (EvLoad InOpen (Resolve (pwd i) name) (pwd i) name) σ0, i))).
    { intros σ0 E. unfold Open. unfold filesAt. rewrite E.
      unfold filesAt in Hmiss. by rewrite Hmiss, Hload. }
    eexists. split; [by apply Hopen|]. simpl. split_and!; try done.
    + erewrite since_app by reflexivity. unfold count. simpl.
      by rewrite String.eqb_refl.
    + eexists. split; [by apply Hopen|]. simpl. split; [done|].
      erewrite since_app by reflexivity. unfold count. simpl.
      by rewrite String.eqb_refl.
Qed.

(** C7, as the program has it.  Resolution cannot fail: [loader.Resolve]
    returns a path for every specifier.  When that path is missing from
    the module cache and the loader fails on the specifier, [Require] fails
    with the loader's error, and not in the resolution step: the loader is
    the one collaborator called, once.  When the call returns, the two
    objects of the export scope of the load have been allocated, [pwd] is
    what it was, [exports] and [module] hold what they held before as [Set]
    converts it, and no cache has changed. *)
Theorem missing_file_fails_in_loader fuel st name e :
  let f := Resolve (pwd st.2) name in
  let ex := (enterScope (runtime st.2)).1.1 in
  let md := (enterScope (runtime st.2)).1.2 in
  isBuiltin name = false ->
  programsAt st.1 (programs st.2) !! f = None ->
  Load (fs st.2) (pwd st.2) name = Err e ->
  exists st',
    Require (S fuel) st name = Some (Err e, st') /\
    since st.1 st'.1 = [EvLoad InRequireFile f (pwd st.2) name] /\
    ~ failsInResolution st (Require (S fuel) st name) /\
    ((ex ∉ dom (heap (runtime st.2))) /\ (md ∉ dom (heap (runtime st.2))) /\
     heap (runtime st'.2) !! ex = Some ∅ /\
     heap (runtime st'.2) !! md = Some {[ "exports" := Object ex ]} /\
     heap (runtime st'.2) = heap (enterScope (runtime st.2)).2) /\
    (pwd st'.2 = pwd st.2 /\
     Get (runtime st'.2) "exports" = Some (ToValue (Get (runtime st.2) "exports")) /\
     Get (runtime st'.2) "module" = Some (ToValue (Get (runtime st.2) "module"))) /\
    (programMaps st'.1 = programMaps st.1 /\ fileMaps st'.1 = fileMaps st.1).
Proof.
  destruct st as [σ i]. cbv zeta. cbn [fst snd]. intros Hb Hmiss Hload.
  rewrite Require_file by done. rewrite requireFile_S.
  erewrite requireFileWith_err by (by apply loadProgram_load_err).
  eexists. split; [reflexivity|]. cbn [fst snd].
  split; [by apply since_app|]. split.
  { intros (e' & st' & [= <- <-] & Hsince). cbn [fst snd] in Hsince.
    by erewrite since_app in Hsince by reflexivity. }
  split.
  { destruct (enterScope_objects (runtime i)) as (? & ? & ? & ?).
    by split_and!. }
  split; [|done].
  split; [done|]. split; [apply leaveScope_exports|apply leaveScope_module].
Qed.

(** ** Replicated contexts *)






(** ** Every load runs the program *)



(** ** What the calls write *)

Lemma since_refl σ : since σ σ = [].
Proof. apply since_app. by rewrite app_nil_r. Qed.

Lemma count_app_0 p t1 t2 :
  count p (t1 ++ t2)%list = 0 -> count p t1 = 0 /\ count p t2 = 0.
Proof. rewrite count_app. lia. Qed.

Lemma confined_same i σ σ' :
  programMaps σ' = programMaps σ ->
  fileMaps σ' = fileMaps σ ->
  consoles σ' = consoles σ ->
  (loaderFails (fs i) ->
   count isTransform (since σ σ') = 0 /\ count isCompile (since σ σ') = 0) ->
  confined i σ σ'.
Proof.
  intros Hp Hf Hc Hl. unfold confined. rewrite Hp, Hf, Hc.
  split_and!; try done. intros Hfail. by destruct (Hl Hfail).
Qed.

Lemma confined_refl i σ : confined i σ σ.
Proof. apply confined_same; try done. intros _. by rewrite since_refl. Qed.

Lemma confined_context i i' σ σ' :
  programs i' = programs i -> files i' = files i -> fs i' = fs i ->
  confined i' σ σ' -> confined i σ σ'.
Proof. unfold confined. by intros -> -> ->. Qed.

Lemma confined_trans i σ1 σ2 σ3 t1 t2 :
  calls σ2 = (calls σ1 ++ t1)%list ->
  calls σ3 = (calls σ2 ++ t2)%list ->
  confined i σ1 σ2 -> confined i σ2 σ3 -> confined i σ1 σ3.
Proof.
  intros E1 E2 (P1 & F1 & C1 & W1 & O1 & L1) (P2 & F2 & C2 & W2 & O2 & L2).
  assert (E3 : calls σ3 = (calls σ1 ++ (t1 ++ t2))%list).
  { rewrite E2, E1. by rewrite app_assoc. }
  rewrite (since_app _ _ _ E1) in W1, O1, L1.
  rewrite (since_app _ _ _ E2) in W2, O2, L2.
  unfold confined. rewrite (since_app _ _ _ E3).
  split_and!.
  - intros a Ha. rewrite P2 by done. by apply P1.
  - intros a Ha. rewrite F2 by done. by apply F1.
  - congruence.
  - intros [Z1 Z2]%count_app_0. rewrite W2 by done. by apply W1.
  - intros [Z1 Z2]%count_app_0. rewrite O2 by done. by apply O1.
  - intros Hfail. destruct (L1 Hfail) as (A1 & B1 & T1 & K1).
    destruct (L2 Hfail) as (A2 & B2 & T2 & K2).
    rewrite !count_app, T1, T2, K1, K2. split_and!; try done; congruence.
Qed.

Lemma behaves_refl st : behaves st st.
Proof. split; [apply evolves_refl|apply confined_refl]. Qed.

Lemma behaves_trans st1 st2 st3 : behaves st1 st2 -> behaves st2 st3 -> behaves st1 st3.
Proof.
  intros [E1 C1] [E2 C2]. split; [by eapply evolves_trans|].
  destruct E1 as ((_&Hfs&_&Hp&Hf&_) & _ & t1 & Ht1 & _).
  destruct E2 as (_ & _ & t2 & Ht2 & _).
  eapply confined_trans; [exact Ht1|exact Ht2|exact C1|].
  by eapply confined_context.
Qed.

Lemma Open_behaves st name r st' : Open st name = (r, st') -> behaves st st'.
Proof.
  intros Hopen. split; [by eapply Open_evolves|].
  destruct st as [σ i]. unfold Open in Hopen. cbn [fst snd].
  destruct (filesAt σ (files i) !! Resolve (pwd i) name) as [d|] eqn:Hc.
  { injection Hopen as <- <-. apply confined_refl. }
  destruct (Load (fs i) (pwd i) name) as [data|e] eqn:Hload;
    injection Hopen as <- <-; cbn [fst snd].
  - unfold confined. erewrite since_app by reflexivity. split_and!; try done.
    + intros a Ha. simpl. by rewrite lookup_insert_ne.
    + intros Hfail. specialize (Hfail (pwd i) name). by rewrite Hload in Hfail.
  - apply confined_same; try done. intros _.
    by erewrite since_app by reflexivity.
Qed.

Lemma loadProgram_confined σ i pwd0 name f r σ' :
  loadProgram σ i pwd0 name f = (r, σ') -> confined i σ σ'.
Proof.
  unfold loadProgram.
  destruct (programsAt σ (programs i) !! f) as [p|] eqn:Hc.
  { intros [= <- <-]. apply confined_refl. }
  destruct (Load (fs i) pwd0 name) as [data|e] eqn:Hload.
  2:{ intros [= <- <-]. apply confined_same; try done. intros _.
      by erewrite since_app by reflexivity. }
  assert (Hnofail : ~ loaderFails (fs i)).
  { intros Hfail. specialize (Hfail pwd0 name). by rewrite Hload in Hfail. }
  destruct (Transform _ _) as [code|].
  2:{ intros [= <- <-]. by apply confined_same. }
  destruct (Compile _ _ _) as [p_|]; intros [= <- <-].
  2:{ by apply confined_same. }
  unfold confined. erewrite since_app; [|simpl; by rewrite <- !app_assoc].
  split_and!; try done.
  intros a Ha. simpl. by rewrite lookup_insert_ne.
Qed.

Lemma requireModule_store_frame i name r i' :
  requireModule i name = (r, i') ->
  programs i' = programs i /\ files i' = files i /\ fs i' = fs i.
Proof.
  intros Hrm. by apply requireModule_frame in Hrm as [(_&?&_&?&?&_) _].
Qed.

Section NestedWrites.

Variable require : State -> string -> option (result (option Value) * State).
Hypothesis require_behaves :
  forall st arg r st', require st arg = Some (r, st') -> behaves st st'.

Lemma RunProgram_behaves p : forall st r st',
  RunProgram require p st = Some (r, st') -> behaves st st'.
Proof.
  induction p as [|e|f k IH|k IH|arg k IH|arg k IH]; intros st r st'; simpl.
  - intros [= <- <-]. apply behaves_refl.
  - intros [= <- <-]. apply behaves_refl.
  - intros Hrun. apply IH in Hrun. destruct st as [σ i].
    eapply behaves_trans; [|exact Hrun]. split.
    + split; [apply sameContext_setRuntime|]. split; [apply cachesGrow_refl|].
      exists []. by rewrite app_nil_r.
    + apply confined_refl.
  - apply IH.
  - destruct (require st arg) as [[r1 st1]|] eqn:Hreq; [|done].
    intros Hrun. eapply behaves_trans; [by eapply require_behaves|by eapply IH].
  - destruct (Open st arg) as [r1 st1] eqn:Hopen.
    intros Hrun. eapply behaves_trans; [by eapply Open_behaves|by eapply IH].
Qed.

Lemma requireFileWith_behaves st name r st' :
  requireFileWith require st name = Some (r, st') -> behaves st st'.
Proof.
  intros Hreq. split.
  { eapply requireFileWith_evolves; [|exact Hreq].
    intros ? ? ? ? Hr. by apply require_behaves in Hr as [? _]. }
  destruct st as [σ i].
  apply requireFileWith_inv in Hreq as (i2 & _ & Hcases). cbn [fst snd].
  set (i1 := setRuntime _ _) in Hcases.
  apply (confined_context i i1); try done.
  destruct Hcases as [(e & Hlp & _)|(p & σ1 & rr & Hlp & Hrun & _)].
  - by eapply loadProgram_confined.
  - pose proof (loadProgram_evolves _ _ _ _ _ _ _ Hlp) as (_ & _ & t1 & E1 & _).
    apply loadProgram_confined in Hlp.
    apply RunProgram_behaves in Hrun as [(_ & _ & t2 & E2 & _) Hc].
    cbn [fst snd] in *.
    eapply (confined_trans _ _ _ _ t1 ([EvRunProgram (Resolve (pwd i) name)] ++ t2));
      [exact E1| |exact Hlp|].
    + rewrite E2. simpl. by rewrite <- app_assoc.
    + eapply (confined_trans _ _ (logCall (EvRunProgram (Resolve (pwd i) name)) σ1)
                _ [EvRunProgram (Resolve (pwd i) name)] t2); [done|exact E2| |exact Hc].
      apply confined_same; try done. intros _.
      by erewrite since_app by reflexivity.
Qed.

End NestedWrites.

Lemma RequireWith_behaves requireFile :
  (forall st name r st', requireFile st name = Some (r, st') -> behaves st st') ->
  forall st arg r st', RequireWith requireFile st arg = Some (r, st') -> behaves st st'.
Proof.
  intros Hrf st arg r st' Hreq. unfold RequireWith in Hreq.
  destruct (isBuiltin arg) eqn:Hb; [|by apply Hrf in Hreq].
  destruct (requireModule st.2 arg) as [r1 i1] eqn:Hrm. injection Hreq as <- <-.
  split.
  - apply requireModule_frame in Hrm as [C _].
    split; [done|]. split; [apply cachesGrow_refl|].
    exists []. by rewrite app_nil_r.
  - apply confined_refl.
Qed.

Lemma requireFile_behaves fuel : forall st name r st',
  requireFile fuel st name = Some (r, st') -> behaves st st'.
Proof.
  induction fuel as [|fuel IH]; intros st name r st'; simpl; [done|].
  apply requireFileWith_behaves. by apply RequireWith_behaves.
Qed.

Lemma Require_behaves fuel st arg r st' :
  Require fuel st arg = Some (r, st') -> behaves st st'.
Proof. apply RequireWith_behaves, requireFile_behaves. Qed.

Lemma later_behaves st st' : later st st' -> behaves st st'.
Proof.
  induction 1 as [st|fuel st arg r st1 st2 Hreq _ IH|st name r st1 st2 Hopen _ IH].
  - apply behaves_refl.
  - eapply behaves_trans; [by eapply Require_behaves|exact IH].
  - eapply behaves_trans; [by eapply Open_behaves|exact IH].
Qed.

(** ** What the caches hold *)

Lemma Open_sound st name r st' :
  soundCaches st.1 -> Open st name = (r, st') -> soundCaches st'.1.
Proof.
  destruct st as [σ i]. cbn [fst]. intros [Sp Sf]. unfold Open.
  destruct (filesAt σ (files i) !! Resolve (pwd i) name) as [d|] eqn:Hc.
  { by intros [= <- <-]. }
  destruct (Load (fs i) (pwd i) name) as [data|e] eqn:Hload; intros [= <- <-].
  - split; [exact Sp|]. intros a k d. cbn [fst]. rewrite filesAt_setFile.
    case_decide as Heq; [|apply Sf].
    destruct Heq as [<- <-]. intros [= <-]. by exists (fs i), (pwd i), name, data.
  - by split.
Qed.

Lemma loadProgram_sound σ i pwd0 name r σ' :
  soundCaches σ ->
  loadProgram σ i pwd0 name (Resolve pwd0 name) = (r, σ') -> soundCaches σ'.
Proof.
  intros [Sp Sf]. unfold loadProgram.
  destruct (programsAt σ (programs i) !! Resolve pwd0 name) as [p|] eqn:Hc.
  { by intros [= <- <-]. }
  destruct (Load (fs i) pwd0 name) as [data|e] eqn:Hload; [|by intros [= <- <-]].
  destruct (Transform _ _) as [code|] eqn:Htr; [|by intros [= <- <-]].
  destruct (Compile _ _ _) as [p_|] eqn:Hco; intros [= <- <-]; [|by split].
  split; [|exact Sf]. intros a k p. rewrite programsAt_setProgram.
  case_decide as Heq; [|apply Sp].
  destruct Heq as [<- <-]. intros [= <-]. exists (fs i), pwd0, name.
  split; [done|]. unfold compileSource. by rewrite Hload, Htr, Hco.
Qed.

Section NestedSound.

Variable require : State -> string -> option (result (option Value) * State).
Hypothesis require_sound :
  forall st arg r st',
    soundCaches st.1 -> require st arg = Some (r, st') -> soundCaches st'.1.

Lemma RunProgram_sound p : forall st r st',
  soundCaches st.1 -> RunProgram require p st = Some (r, st') -> soundCaches st'.1.
Proof.
  induction p as [|e|f k IH|k IH|arg k IH|arg k IH]; intros st r st' Hs; simpl.
  - by intros [= <- <-].
  - by intros [= <- <-].
  - by apply IH.
  - by apply IH.
  - destruct (require st arg) as [[r1 st1]|] eqn:Hreq; [|done].
    apply IH. by eapply require_sound.
  - destruct (Open st arg) as [r1 st1] eqn:Hopen.
    apply IH. by eapply Open_sound.
Qed.

Lemma requireFileWith_sound st name r st' :
  soundCaches st.1 ->
  requireFileWith require st name = Some (r, st') -> soundCaches st'.1.
Proof.
  destruct st as [σ i]. cbn [fst]. intros Hs Hreq.
  apply requireFileWith_inv in Hreq as (i2 & _ & Hcases).
  destruct Hcases as [(e & Hlp & _)|(p & σ1 & rr & Hlp & Hrun & _)].
  - by eapply loadProgram_sound.
  - apply loadProgram_sound in Hlp; [|done].
    by eapply RunProgram_sound in Hrun.
Qed.

End NestedSound.

Lemma requireFile_sound fuel : forall st name r st',
  soundCaches st.1 -> requireFile fuel st name = Some (r, st') -> soundCaches st'.1.
Proof.
  induction fuel as [|fuel IH]; intros st name r st' Hs; simpl; [done|].
  apply requireFileWith_sound; [|done].
  intros st1 arg r1 st1' Hs1. unfold RequireWith.
  destruct (isBuiltin arg); [|by apply IH].
  destruct (requireModule st1.2 arg). by intros [= <- <-].
Qed.

Lemma Require_sound fuel st arg r st' :
  soundCaches st.1 -> Require fuel st arg = Some (r, st') -> soundCaches st'.1.
Proof.
  intros Hs. unfold Require, RequireWith.
  destruct (isBuiltin arg); [|by apply requireFile_sound].
  destruct (requireModule st.2 arg). by intros [= <- <-].
Qed.

Lemma soundCaches_NewInitContext σ rt ctx fs0 pwd0 :
  soundCaches σ -> soundCaches (NewInitContext σ rt ctx fs0 pwd0).2.
Proof.
  intros [Sp Sf]. split.
  - intros a k p. unfold programsAt. simpl.
    destruct (decide (fresh (dom (programMaps σ)) = a)) as [<-|Hne].
    + by rewrite lookup_insert_eq.
    + rewrite lookup_insert_ne by done. apply Sp.
  - intros a k d. unfold filesAt. simpl.
    destruct (decide (fresh (dom (fileMaps σ)) = a)) as [<-|Hne].
    + by rewrite lookup_insert_eq.
    + rewrite lookup_insert_ne by done. apply Sf.
Qed.

Lemma soundCaches_empty cs t : soundCaches (mkStore ∅ ∅ cs t).
Proof. split; intros a k x; unfold programsAt, filesAt; simpl; by rewrite lookup_empty. Qed.

(** ** Further properties *)

(** X1. Whatever sequence of [Require] and [Open] calls a context makes,
    its filesystem, context pointer, console and cache addresses stay what
    they were, no console is made, and the program and file maps of every
    other address are untouched. *)
Theorem calls_keep_to_own_caches st st' :
  later st st' ->
  sameContext st.2 st'.2 /\
  consoles st'.1 = consoles st.1 /\
  (forall a, a <> programs st.2 -> programsAt st'.1 a = programsAt st.1 a) /\
  (forall a, a <> files st.2 -> filesAt st'.1 a = filesAt st.1 a).
Proof.
  intros [(C & _) (P & F & K & _)]%later_behaves.
  split; [exact C|]. split; [exact K|]. split.
  - intros a Ha. unfold programsAt. by rewrite P.
  - intros a Ha. unfold filesAt. by rewrite F.
Qed.

(** X2. The program maps change only when the compiler was called, and the
    file maps only when [Open] called the loader: a sequence of calls that
    logged no compiler call left every program map as it was, and one that
    logged no loader call from [Open] left every file map as it was. *)
Theorem caches_written_only_after_calls st st' :
  later st st' ->
  (count isCompile (since st.1 st'.1) = 0 -> programMaps st'.1 = programMaps st.1) /\
  (count isOpenLoad (since st.1 st'.1) = 0 -> fileMaps st'.1 = fileMaps st.1).
Proof. intros [_ (_ & _ & _ & W & O & _)]%later_behaves. by split. Qed.

(** X3. With a loader that returns nothing without a filesystem, a context
    made by [newBoundInitContext] never writes the caches it shares:
    whatever it requires and opens, at any depth, every program map and file
    map stays as it was, and neither the transformer nor the compiler is
    called. *)
Theorem bound_context_is_read_only base ctx rt σ st' :
  loaderFails None ->
  later (σ, newBoundInitContext base ctx rt) st' ->
  programMaps st'.1 = programMaps σ /\ fileMaps st'.1 = fileMaps σ /\
  count isTransform (since σ st'.1) = 0 /\ count isCompile (since σ st'.1) = 0.
Proof.
  intros Hfail [_ (_ & _ & _ & _ & _ & L)]%later_behaves. by apply L.
Qed.

(** X4. Sound caches stay sound: if every cached program is what the
    loader, the transformer and the compiler make of some specifier that
    resolves to its key, and every cached file what the loader returns for
    such a specifier, then the same holds after any sequence of [Require]
    and [Open] calls. *)
Theorem caches_stay_sound st st' :
  soundCaches st.1 -> later st st' -> soundCaches st'.1.
Proof.
  intros Hs Hl. induction Hl as [st|fuel st arg r st1 st2 Hreq _ IH|st name r st1 st2 Hopen _ IH].
  - exact Hs.
  - apply IH. by eapply Require_sound.
  - apply IH. by eapply Open_sound.
Qed.

(** A load of a path that is missing from the cache starts with a call of
    the loader. *)
Lemma requireFile_miss_first fuel σ i name r st' :
  programsAt σ (programs i) !! Resolve (pwd i) name = None ->
  requireFile fuel (σ, i) name = Some (r, st') ->
  exists t,
    calls st'.1 =
      (calls σ ++ EvLoad InRequireFile (Resolve (pwd i) name) (pwd i) name :: t)%list.
Proof.
  intros Hmiss Hreq.
  destruct (compileSource (fs i) (pwd i) name) as [p|e] eqn:Hcs.
  - destruct (requireFile_miss_log _ _ _ _ _ _ _ Hmiss Hcs Hreq) as (data & t & E & _).
    eexists. exact E.
  - destruct fuel as [|fuel]; [done|].
    destruct (requireFile_miss_err fuel σ i name e Hmiss Hcs)
      as (σ' & t & Hreq' & _ & _ & _ & E & _).
    rewrite Hreq' in Hreq. injection Hreq as _ <-. by exists t.
Qed.

(** X5. A module that the base context has loaded is at hand in every
    replica: a [Require], in a context made by [newBoundInitContext] from
    the base at any later time, of a specifier that resolves to the same
    canonical path calls neither the loader nor the transformer nor the
    compiler for that path, and runs the program. *)
Theorem replica_reuses_compiled_module
    fuel1 fuel2 st name1 name2 p r1 st1 stL ctx rt r2 st2 :
  let f := Resolve (pwd st.2) name1 in
  isBuiltin name1 = false ->
  isBuiltin name2 = false ->
  Resolve (pwd st.2) name2 = f ->
  programsAt st.1 (programs st.2) !! f = None ->
  compileSource (fs st.2) (pwd st.2) name1 = Ok p ->
  Require fuel1 st name1 = Some (r1, st1) ->
  later st1 stL ->
  Require fuel2 (stL.1, newBoundInitContext stL.2 ctx rt) name2 = Some (r2, st2) ->
  count (isLoadOf InRequireFile f) (since stL.1 st2.1) = 0 /\
  count (isTransformOf f) (since stL.1 st2.1) = 0 /\
  count (isCompileOf f) (since stL.1 st2.1) = 0 /\
  1 <= count (isRunOf f) (since stL.1 st2.1) /\
  programsAt st2.1 (programs stL.2) !! f = Some p.
Proof.
  intros f Hb1 Hb2 Hsame Hmiss Hcs H1 HL H2.
  rewrite Require_file in H1, H2 by done.
  pose proof (requireFile_evolves _ _ _ _ _ H1) as ((_&_&Hpwd1&Hp1&_) & _ & _).
  pose proof (later_evolves _ _ HL) as ((_&_&HpwdL&HpL&_) & [GL _] & _).
  pose proof (requireFile_evolves _ _ _ _ _ H2) as (_ & [G2 _] & _).
  destruct st as [σ i]. cbn [fst snd] in *.
  destruct (requireFile_miss_log _ _ _ _ _ _ _ Hmiss Hcs H1)
    as (_ & _ & _ & _ & _ & _ & Hin1).
  fold f in Hin1.
  destruct st1 as [σ1 i1], stL as [σL iL]. cbn [fst snd] in *.
  set (b := newBoundInitContext iL ctx rt) in *.
  assert (HhitL : programsAt σL (programs b) !! Resolve (pwd b) name2 = Some p).
  { cbn [b newBoundInitContext programs pwd].
    rewrite HpwdL, Hpwd1, Hsame, HpL, Hp1. by apply GL. }
  destruct (requireFile_hit_log _ _ _ _ _ _ _ HhitL H2) as (t2 & E2 & F2).
  destruct (onMiss_cached (σL, b) _ _ _ HhitL F2) as (L2 & T2 & C2).
  assert (Hf : Resolve (pwd b) name2 = f).
  { cbn [b newBoundInitContext pwd]. by rewrite HpwdL, Hpwd1. }
  rewrite Hf in E2, L2, T2, C2, HhitL.
  rewrite (since_app σL st2.1 _ E2).
  rewrite !count_cons, L2, T2, C2. simpl. rewrite String.eqb_refl.
  split_and!; try done; try lia.
  by apply G2.
Qed.

Lemma loadProgram_no_run σ i pwd0 name f r σ' g :
  loadProgram σ i pwd0 name f = (r, σ') ->
  exists t, calls σ' = (calls σ ++ t)%list /\ count (isRunOf g) t = 0.
Proof.
  unfold loadProgram.
  destruct (programsAt σ (programs i) !! f) as [p|].
  { intros [= <- <-]. exists []. by rewrite app_nil_r. }
  destruct (Load (fs i) pwd0 name) as [data|].
  2:{ intros [= <- <-]. by exists [EvLoad InRequireFile f pwd0 name]. }
  destruct (Transform _ _) as [code|].
  2:{ intros [= <- <-]. eexists [_; _]. split; [simpl; by rewrite <- app_assoc|done]. }
  destruct (Compile _ _ _) as [p_|]; intros [= <- <-].
  - eexists [_; _; _]. split; [simpl; by rewrite <- !app_assoc|done].
  - eexists [_; _; _]. split; [simpl; by rewrite <- !app_assoc|done].
Qed.

(** X6. When a [Require] of a path that is missing from the module cache
    fails, the path is cached afterwards exactly when the failure is not
    the one of the loader, the transformer or the compiler: either these
    fail with the error returned and the path is still missing, or they
    succeed, the program was run and it is cached although the call
    failed. *)
Theorem failed_require_caches_unless_pipeline_fails fuel st name e st' :
  let f := Resolve (pwd st.2) name in
  isBuiltin name = false ->
  programsAt st.1 (programs st.2) !! f = None ->
  Require fuel st name = Some (Err e, st') ->
  (compileSource (fs st.2) (pwd st.2) name = Err e /\
   programsAt st'.1 (programs st'.2) !! f = None /\
   count (isRunOf f) (since st.1 st'.1) = 0) \/
  (exists p,
     compileSource (fs st.2) (pwd st.2) name = Ok p /\
     programsAt st'.1 (programs st'.2) !! f = Some p /\
     1 <= count (isRunOf f) (since st.1 st'.1)).
Proof.
  intros f Hb Hmiss Hreq. rewrite Require_file in Hreq by done.
  pose proof (requireFile_evolves _ _ _ _ _ Hreq) as ((_&_&_&Hp&_) & _ & _).
  destruct st as [σ i]. cbn [fst snd] in *.
  destruct (compileSource (fs i) (pwd i) name) as [p|e0] eqn:Hcs.
  - right. exists p. split; [done|].
    destruct (requireFile_miss_log _ _ _ _ _ _ _ Hmiss Hcs Hreq)
      as (data & t & E & _ & _ & _ & Hin).
    rewrite Hp. split; [exact Hin|].
    rewrite (since_app _ _ _ E). rewrite count_app, !count_cons. simpl.
    fold f. rewrite String.eqb_refl. lia.
  - left. destruct fuel as [|fuel]; [done|].
    destruct (loadProgram_miss_err σ
                (setRuntime (enterScope (runtime i)).2 (setPwd (Dir f) i))
                (pwd i) name f e0 Hmiss Hcs)
      as (σ' & t & Hlp & Hpm & _ & _ & E & _).
    rewrite requireFile_S in Hreq.
    erewrite requireFileWith_err in Hreq by exact Hlp.
    injection Hreq as <- <-. cbn [fst snd].
    split; [done|]. split.
    + unfold programsAt. rewrite Hpm. exact Hmiss.
    + destruct (loadProgram_no_run _ _ _ _ _ _ _ f Hlp) as (t' & E' & Hrun).
      by rewrite (since_app _ _ _ E').
Qed.

(** X7. A [Require] of a registered builtin module binds the module anew
    each time: two calls in a row return two different objects, neither of
    which existed before its call; each holds what [Bind] makes of the
    module with the context pointer of the calling context, and the first
    object is left as it is by the second call. *)
Theorem builtin_require_binds_new_object fuel1 fuel2 st arg md :
  isBuiltin arg = true ->
  Index !! arg = Some md ->
  exists l1 st1 l2 st2,
    Require fuel1 st arg = Some (Ok (Some (Object l1)), st1) /\
    Require fuel2 st1 arg = Some (Ok (Some (Object l2)), st2) /\
    (l1 ∉ dom (heap (runtime st.2))) /\ (l2 ∉ dom (heap (runtime st1.2))) /\
    l1 <> l2 /\
    heap (runtime st1.2) !! l1 = Some (Bind (runtime st.2) md (ctxPtr st.2)) /\
    heap (runtime st2.2) !! l1 = Some (Bind (runtime st.2) md (ctxPtr st.2)) /\
    heap (runtime st2.2) !! l2 = Some (Bind (runtime st1.2) md (ctxPtr st.2)).
Proof.
  intros Hb Hidx. destruct st as [σ i].
  unfold Require, RequireWith, requireModule, allocObject. rewrite Hb, Hidx.
  simpl.
  set (l1 := fresh (dom (heap (runtime i)))).
  set (h1 := <[l1 := Bind (runtime i) md (ctxPtr i)]> (heap (runtime i))).
  set (l2 := fresh (dom h1)).
  assert (H1 : l1 ∉ dom (heap (runtime i))) by apply is_fresh.
  assert (H2 : l2 ∉ dom h1) by apply is_fresh.
  assert (Hne : l1 <> l2).
  { intros E. apply H2. rewrite <- E. unfold h1. rewrite dom_insert_L. set_solver. }
  eexists l1, _, l2, _. split; [reflexivity|]. split; [reflexivity|].
  simpl. split_and!; try done.
  - unfold h1. by rewrite lookup_insert_eq.
  - rewrite lookup_insert_ne by done. unfold h1. by rewrite lookup_insert_eq.
  - by rewrite lookup_insert_eq.
Qed.

(** X8. The content of a file is fixed by its first successful [Open]:
    whatever calls the context makes afterwards, an [Open] of a specifier
    that resolves to the same canonical path returns the same content, from
    the cache, and changes nothing. *)
Theorem open_content_is_stable st name1 content st1 stL name2 :
  Open st name1 = (Ok content, st1) ->
  later st1 stL ->
  Resolve (pwd st.2) name2 = Resolve (pwd st.2) name1 ->
  Open stL name2 = (Ok content, stL).
Proof.
  intros Hopen HL Hsame.
  assert (Hcached : exists d,
             filesAt st1.1 (files st1.2) !! Resolve (pwd st.2) name1 = Some d /\
             content = string_of_list_byte d /\ st1.2 = st.2).
  { destruct st as [σ i]. unfold Open in Hopen. cbn [fst snd].
    destruct (filesAt σ (files i) !! Resolve (pwd i) name1) as [d|] eqn:Hc.
    - injection Hopen as <- <-. by exists d.
    - destruct (Load (fs i) (pwd i) name1) as [data|]; [|done].
      injection Hopen as <- <-. exists (Data data). cbn [fst snd].
      rewrite filesAt_setFile. by rewrite decide_True. }
  destruct Hcached as (d & Hd & -> & Hctx).
  apply later_evolves in HL as ((_&_&Hpwd&_&Hf&_) & [_ G] & _).
  destruct stL as [σL iL]. cbn [fst snd] in *. unfold Open.
  assert (Hhit : filesAt σL (files iL) !! Resolve (pwd iL) name2 = Some d).
  { rewrite Hpwd, Hf, Hctx, Hsame. apply G. rewrite Hctx in Hd. exact Hd. }
  by rewrite Hhit.
Qed.

(** X10. A context made by [NewInitContext] has caches and a console of
    its own, at addresses that were not in use, and both caches are empty;
    the caches of the contexts made before are as they were; and its first
    [Require] of any file path calls the loader, whatever other contexts
    have cached. *)
Theorem new_context_has_cold_private_caches σ rt ctx fs0 pwd0 :
  let i := (NewInitContext σ rt ctx fs0 pwd0).1 in
  let σ' := (NewInitContext σ rt ctx fs0 pwd0).2 in
  ((programs i ∉ dom (programMaps σ)) /\ (files i ∉ dom (fileMaps σ)) /\
   (Console i ∉ consoles σ)) /\
  (programsAt σ' (programs i) = ∅ /\ filesAt σ' (files i) = ∅) /\
  ((forall a, a <> programs i -> programsAt σ' a = programsAt σ a) /\
   (forall a, a <> files i -> filesAt σ' a = filesAt σ a)) /\
  (forall fuel name r st',
     isBuiltin name = false ->
     Require fuel (σ', i) name = Some (r, st') ->
     exists t,
       since σ' st'.1 = EvLoad InRequireFile (Resolve pwd0 name) pwd0 name :: t).
Proof.
  cbn [NewInitContext fst snd programs files Console].
  split; [split_and!; apply is_fresh|].
  split.
  { unfold programsAt, filesAt. simpl. by rewrite !lookup_insert_eq. }
  split.
  { split; intros a Ha; unfold programsAt, filesAt; simpl;
      by rewrite lookup_insert_ne. }
  intros fuel name r st' Hb Hreq. rewrite Require_file in Hreq by done.
  apply requireFile_miss_first in Hreq as (t & E).
  - exists t. by apply since_app.
  - unfold programsAt. simpl. by rewrite lookup_insert_eq.
Qed.

(** X11. A loaded module's own [require] resolves against the directory of
    the module, not against the directory of its importer: when the program
    of the module at path [f] starts with a [require] of a specifier whose
    path, resolved in the directory of [f], is not cached, the loader is
    called with that directory and that specifier. *)
Theorem nested_require_resolves_in_module_directory fuel st name p arg2 k r st' :
  let f := Resolve (pwd st.2) name in
  let f2 := Resolve (Dir f) arg2 in
  isBuiltin name = false ->
  isBuiltin arg2 = false ->
  programsAt st.1 (programs st.2) !! f = Some p \/
  (programsAt st.1 (programs st.2) !! f = None /\
   compileSource (fs st.2) (pwd st.2) name = Ok p) ->
  pgm p = PRequire arg2 k ->
  programsAt st.1 (programs st.2) !! f2 = None ->
  f2 <> f ->
  Require fuel st name = Some (r, st') ->
  In (EvLoad InRequireFile f2 (Dir f) arg2) (since st.1 st'.1).
Proof.
  intros f f2 Hb Hb2 Hp Hpgm Hmiss2 Hne Hreq.
  rewrite Require_file in Hreq by done.
  destruct fuel as [|fuel]; [done|]. rewrite requireFile_S in Hreq.
  destruct st as [σ i]. cbn [fst snd] in *.
  apply requireFileWith_inv in Hreq as (i2 & _ & Hcases).
  fold f in Hcases. set (i1 := setRuntime _ _) in Hcases.
  assert (Hlp : exists σ1 t1,
             loadProgram σ i1 (pwd i) name f = (Ok p, σ1) /\
             calls σ1 = (calls σ ++ t1)%list /\
             programsAt σ1 (programs i) !! f2 = None).
  { destruct Hp as [Hhit|[Hmiss Hcs]].
    - exists σ, []. rewrite (loadProgram_hit _ _ _ _ _ p) by done.
      by rewrite app_nil_r.
    - destruct (loadProgram_miss_ok σ i1 (pwd i) name f p Hmiss Hcs)
        as (data & _ & ->).
      eexists _, [_; _; _]. split; [reflexivity|]. split.
      + simpl. by rewrite <- !app_assoc.
      + rewrite programsAt_setProgram. rewrite decide_False; [done|].
        intros [_ E]. by apply Hne. }
  destruct Hlp as (σ1 & t1 & Hlp & E1 & Hmiss1). rewrite Hlp in Hcases.
  destruct Hcases as [(e & [=] & _)|(p' & σ1' & rr & [= <- <-] & Hrun & _)].
  rewrite Hpgm in Hrun. simpl in Hrun. unfold RequireWith in Hrun at 1.
  rewrite Hb2 in Hrun.
  destruct (requireFile fuel _ arg2) as [[r2 st2]|] eqn:Hreq2; [|done].
  apply requireFile_miss_first in Hreq2 as (t2 & E2); [|exact Hmiss1].
  eapply RunProgram_evolves in Hrun as (_ & _ & t3 & E3 & _).
  2:{ intros ? ? ? ?. apply (Require_evolves fuel). }
  cbn [fst snd] in *.
  assert (E : calls st'.1 =
              (calls σ ++ (t1 ++ [EvRunProgram f]) ++
                 EvLoad InRequireFile f2 (Dir f) arg2 :: t2 ++ t3)%list).
  { rewrite E3, E2. simpl. rewrite E1. by rewrite <- !app_assoc. }
  rewrite (since_app _ _ _ E). apply in_or_app. right. apply in_eq.
Qed.

(** X12. Likewise a loaded module's [open] reads relative to the directory
    of the module: when the program of the module at path [f] starts with
    an [open] of a specifier whose path, resolved in the directory of [f],
    is not in the file cache, the loader is called with that directory and
    that specifier. *)
Theorem nested_open_resolves_in_module_directory fuel st name p arg2 k r st' :
  let f := Resolve (pwd st.2) name in
  let f2 := Resolve (Dir f) arg2 in
  isBuiltin name = false ->
  programsAt st.1 (programs st.2) !! f = Some p \/
  (programsAt st.1 (programs st.2) !! f = None /\
   compileSource (fs st.2) (pwd st.2) name = Ok p) ->
  pgm p = POpen arg2 k ->
  filesAt st.1 (files st.2) !! f2 = None ->
  Require fuel st name = Some (r, st') ->
  In (EvLoad InOpen f2 (Dir f) arg2) (since st.1 st'.1).
Proof.
  intros f f2 Hb Hp Hpgm Hmiss2 Hreq.
  rewrite Require_file in Hreq by done.
  destruct fuel as [|fuel]; [done|]. rewrite requireFile_S in Hreq.
  destruct st as [σ i]. cbn [fst snd] in *.
  apply requireFileWith_inv in Hreq as (i2 & _ & Hcases).
  fold f in Hcases. set (i1 := setRuntime _ _) in Hcases.
  assert (Hlp : exists σ1 t1,
             loadProgram σ i1 (pwd i) name f = (Ok p, σ1) /\
             calls σ1 = (calls σ ++ t1)%list /\
             filesAt σ1 (files i) !! f2 = None).
  { destruct Hp as [Hhit|[Hmiss Hcs]].
    - exists σ, []. rewrite (loadProgram_hit _ _ _ _ _ p) by done.
      by rewrite app_nil_r.
    - destruct (loadProgram_miss_ok σ i1 (pwd i) name f p Hmiss Hcs)
        as (data & _ & ->).
      eexists _, [_; _; _]. split; [reflexivity|]. split; [|exact Hmiss2].
      simpl. by rewrite <- !app_assoc. }
  destruct Hlp as (σ1 & t1 & Hlp & E1 & Hmiss1). rewrite Hlp in Hcases.
  destruct Hcases as [(e & [=] & _)|(p' & σ1' & rr & [= <- <-] & Hrun & _)].
  rewrite Hpgm in Hrun. simpl in Hrun.
  change (filesAt (logCall (EvRunProgram f) σ1) (files i)
            !! Resolve (Dir f) arg2 = None) in Hmiss1.
  rewrite Hmiss1 in Hrun.
  set (σ2 := logCall (EvLoad InOpen _ _ _) _) in Hrun.
  assert (Hrest : exists r2 σ3,
             calls σ3 = calls σ2 /\
             RunProgram (RequireWith (requireFile fuel)) (k r2) (σ3, i1)
             = Some (rr, (st'.1, i2))).
  { destruct (Load (fs i) (Dir f) arg2) as [data|e]; eexists _, _;
      (split; [|exact Hrun]); done. }
  destruct Hrest as (r2 & σ3 & E2 & Hrun').
  eapply RunProgram_evolves in Hrun' as (_ & _ & t3 & E3 & _).
  2:{ intros ? ? ? ?. apply (Require_evolves fuel). }
  cbn [fst snd] in E3.
  assert (E : calls st'.1 =
              (calls σ ++ (t1 ++ [EvRunProgram f]) ++
                 EvLoad InOpen f2 (Dir f) arg2 :: t3)%list).
  { rewrite E3, E2. unfold σ2. simpl. rewrite E1. by rewrite <- !app_assoc. }
  rewrite (since_app _ _ _ E). apply in_or_app. right. apply in_eq.
Qed.

End Properties.

(** * The loader at work on the concrete instance *)

Example isBuiltin_examples :
  isBuiltin "k6" = true /\ isBuiltin "k6/http" = true /\
  isBuiltin "k6x" = false /\ isBuiltin "./k6/http" = false /\
  isBuiltin "" = false.
Proof. by repeat split. Qed.

Example resolvePath_examples :
  resolvePath "/t" "./lib.js" = "/t/lib.js" /\
  resolvePath "/t" "lib.js" = "/t/lib.js" /\
  resolvePath "/t/sub" "/t/lib.js" = "/t/lib.js" /\
  dirOf "/t/sub/inner.js" = "/t/sub" /\ dirOf "/lib.js" = "/".
Proof. by repeat split. Qed.

(** Nested loads resolve against the directory of the loading module:
    [/t/deep.js] requires [./sub/mid.js], which requires [./leaf.js], that
    is [/t/sub/leaf.js]; the value comes back through both. *)
Example nested_require_example :
  let out := Require0 3 st0 "./deep.js" in
  returnsOk out = true /\
  field (runtime (after st0 out).2) (valueOf None out) "value" = Some (Number 1) /\
  count (isRunOf "/t/sub/leaf.js") (since st0.1 (after st0 out).1) = 1 /\
  pwd (after st0 out).2 = "/t".
Proof. vm_compute. by repeat split. Qed.

(** An error that the loading module catches does not fail its load. *)
Example caught_error_example :
  let out := Require0 2 st0 "./guarded.js" in
  returnsOk out = true /\
  field (runtime (after st0 out).2) (valueOf None out) "seen" = Some (Str "caught") /\
  pwd (after st0 out).2 = "/t".
Proof. vm_compute. by repeat split. Qed.

Lemma returnsOk_eq {A S} (d : A) (st : S) (out : option (result A * S)) :
  returnsOk out = true -> out = Some (Ok (valueOf d out), after st out).
Proof. by destruct out as [[[v|e] st']|]. Qed.

Lemma errorOf_eq {A S} (st : S) (out : option (result A * S)) e :
  errorOf out = Some e -> out = Some (Err e, after st out).
Proof. destruct out as [[[v|e'] st']|]; try done. by intros [= ->]. Qed.

Lemma pair_eq {A B} (p : A * B) a : p.1 = a -> p = (a, p.2).
Proof. destruct p. by intros <-. Qed.



(** Two different relative specifiers of [/t/lib.js], with an [Open] and
    a [Require] of another module in between. *)
Lemma require_compiles_once_witness :
  exists r1 st1 stL r2 st2,
    Require0 1 st0 "./lib.js" = Some (r1, st1) /\
    @later collab0 st1 stL /\
    Require0 1 stL "lib.js" = Some (r2, st2) /\
    count (isLoadOf InRequireFile "/t/lib.js") (since st0.1 st2.1) = 1 /\
    count (isTransformOf "/t/lib.js") (since st0.1 st2.1) = 1 /\
    count (isCompileOf "/t/lib.js") (since st0.1 st2.1) = 1.
Proof.
  set (out1 := Require0 1 st0 "./lib.js").
  set (stA := (Open0 (after st0 out1) "a.txt").2).
  set (outB := Require0 3 stA "./deep.js").
  set (out2 := Require0 1 (after st0 outB) "lib.js").
  assert (H1 : out1 = Some (Ok (valueOf None out1), after st0 out1)).
  { apply returnsOk_eq. vm_compute. reflexivity. }
  assert (HA : Open0 (after st0 out1) "a.txt" = (Ok "hello", stA)).
  { apply pair_eq. vm_compute. reflexivity. }
  assert (HB : outB = Some (Ok (valueOf None outB), after st0 outB)).
  { apply returnsOk_eq. vm_compute. reflexivity. }
  assert (H2 : out2 = Some (Ok (valueOf None out2), after st0 out2)).
  { apply returnsOk_eq. vm_compute. reflexivity. }
  assert (HL : @later collab0 (after st0 out1) (after st0 outB)).
  { eapply later_Open; [exact HA|]. eapply later_Require; [exact HB|].
    apply later_now. }
  eexists _, _, _, _, _. split; [exact H1|]. split; [exact HL|].
  split; [exact H2|].
  refine (proj1 (@require_compiles_once collab0 1 1 st0 "./lib.js" "lib.js"
                   (mkProgramWithSource libProgram libSource) _ _ _ _ _
                   _ _ _ _ _ H1 HL H2)).
  - reflexivity.
  - reflexivity.
  - vm_compute. reflexivity.
  - vm_compute. reflexivity.
  - reflexivity.
Defined.

(** A nested load that fails: [/t/nest.js] requires [./sub/inner.js], which
    requires a file that does not exist. *)
Lemma require_restores_pwd_witness :
  exists e st',
    Require0 3 st0 "./nest.js" = Some (Err e, st') /\ pwd st'.2 = pwd st0.2.
Proof.
  set (out := Require0 3 st0 "./nest.js").
  assert (Hret : out = Some (Err (GoError (GoError
                         (errorString "file not found: /t/sub/missing.js"))),
                       after st0 out)).
  { apply errorOf_eq. vm_compute. reflexivity. }
  eexists _, _. split; [exact Hret|].
  apply (@require_restores_pwd collab0 3 st0 "./nest.js" _ _ eq_refl Hret).
Defined.



Lemma unknown_builtin_fails_witness :
  Require0 0 st0 "k6/doesnotexist"
  = Some (Err (errorString "unknown builtin module: k6/doesnotexist"), st0).
Proof.
  apply (@unknown_builtin_fails collab0 0 st0 "k6/doesnotexist").
  - reflexivity.
  - vm_compute. reflexivity.
Defined.

Lemma builtin_require_frame_witness :
  exists r st',
    Require0 0 st0 "k6/http" = Some (r, st') /\
    (isOk r = false <-> @Index collab0 !! "k6/http" = None) /\
    pwd st'.2 = pwd st0.2 /\
    globalObject (runtime st'.2) = globalObject (runtime st0.2) /\
    Get (runtime st'.2) "exports" = Get (runtime st0.2) "exports" /\
    Get (runtime st'.2) "module" = Get (runtime st0.2) "module" /\
    programMaps st'.1 = programMaps st0.1 /\
    fileMaps st'.1 = fileMaps st0.1.
Proof.
  apply (@builtin_require_frame collab0 0 st0 "k6/http"). reflexivity.
Defined.

(** [/t/bad.js] does not compile; [/t/nothing.txt] does not exist. *)
Lemma failed_load_is_not_cached_witness :
  (exists st' st'',
     Require0 1 st0 "./bad.js" = Some (Err (errorString "SyntaxError: /t/bad.js"), st') /\
     programMaps st'.1 = programMaps st0.1 /\
     Require0 1 st' "./bad.js" = Some (Err (errorString "SyntaxError: /t/bad.js"), st'') /\
     count (isLoadOf InRequireFile "/t/bad.js") (since st'.1 st''.1) = 1) /\
  (exists st' st'',
     Open0 st0 "nothing.txt" = (Err (errorString "file not found: /t/nothing.txt"), st') /\
     fileMaps st'.1 = fileMaps st0.1 /\
     Open0 st' "nothing.txt" = (Err (errorString "file not found: /t/nothing.txt"), st'') /\
     count (isLoadOf InOpen "/t/nothing.txt") (since st'.1 st''.1) = 1).
Proof.
  split.
  - destruct (proj1 (@failed_load_is_not_cached collab0 st0 "./bad.js"
                       (errorString "SyntaxError: /t/bad.js"))
                eq_refl eq_refl eq_refl 0)
      as (st' & H1 & Hpm & _ & _ & _ & _ & _ & _ & st'' & H2 & _ & Hc).
    exists st', st''. split; [exact H1|]. split; [exact Hpm|].
    split; [exact H2|exact Hc].
  - destruct (proj2 (@failed_load_is_not_cached collab0 st0 "nothing.txt"
                       (errorString "file not found: /t/nothing.txt"))
                eq_refl eq_refl)
      as (st' & H1 & _ & Hfm & _ & _ & st'' & H2 & _ & Hc).
    exists st', st''. split; [exact H1|]. split; [exact Hfm|].
    split; [exact H2|exact Hc].
Defined.

Lemma missing_file_fails_in_loader_witness :
  exists st',
    Require0 1 st0 "./missing.js"
    = Some (Err (errorString "file not found: /t/missing.js"), st') /\
    since st0.1 st'.1 = [EvLoad InRequireFile "/t/missing.js" "/t" "./missing.js"].
Proof.
  destruct (@missing_file_fails_in_loader collab0 0 st0 "./missing.js"
              (errorString "file not found: /t/missing.js")
              eq_refl eq_refl eq_refl)
    as (st' & H1 & H2 & _).
  exists st'. split; [exact H1|exact H2].
Defined.

(** C7 as stated fails.  [/t/missing.js] does not exist, and [Require]
    fails on it, but not in the resolution step: the specifier resolves, and
    the error is the one of the loader, which was called.  And [/t/lib.js],
    removed from the disk after it was cached, is required without any
    failure. *)
Lemma resolution_error_counterexample :
  (isBuiltin "./missing.js" = false /\
   disk !! resolvePath "/t" "./missing.js" = None /\
   errorOf (Require0 1 st0 "./missing.js")
   = Some (errorString "file not found: /t/missing.js") /\
   ~ @failsInResolution collab0 st0 (Require0 1 st0 "./missing.js")) /\
  (isBuiltin "./lib.js" = false /\
   fs stRemoved.2 = Some (delete "/t/lib.js" disk) /\
   delete "/t/lib.js" disk !! resolvePath "/t" "./lib.js" = None /\
   returnsOk (Require0 1 stRemoved "./lib.js") = true).
Proof.
  split.
  - split; [reflexivity|]. split; [vm_compute; reflexivity|].
    assert (Herr : errorOf (Require0 1 st0 "./missing.js")
                   = Some (errorString "file not found: /t/missing.js")).
    { vm_compute. reflexivity. }
    split; [exact Herr|].
    intros (e & st' & Hreq & Hsince).
    rewrite (errorOf_eq st0 _ _ Herr) in Hreq. injection Hreq as <- <-.
    vm_compute in Hsince. discriminate Hsince.
  - split; [reflexivity|]. split; [reflexivity|].
    split; vm_compute; reflexivity.
Qed.

Lemma open_loads_once_witness :
  exists st1,
    Open0 st0 "a.txt" = (Ok "hello", st1) /\
    Open0 st1 "./a.txt" = (Ok "hello", st1) /\
    since st0.1 st1.1 = [EvLoad InOpen "/t/a.txt" "/t" "a.txt"].
Proof.
  assert (H1 : Open0 st0 "a.txt" = (Ok "hello", (Open0 st0 "a.txt").2)).
  { apply pair_eq. vm_compute. reflexivity. }
  eexists. split; [exact H1|].
  refine ((fun H => conj (proj1 H) (proj1 (proj2 H)))
            (@open_loads_once collab0 st0 "a.txt" "./a.txt" "hello" _ _ _ H1)).
  - vm_compute. reflexivity.
  - vm_compute. reflexivity.
Defined.



(** * The further properties on the concrete instance *)

(** Loading the entry module through a second base context leaves the
    cache of the first as it was. *)
Lemma calls_keep_to_own_caches_witness :
  exists st',
    @later collab0 stSecond st' /\
    returnsOk (Require0 3 stSecond "./main.js") = true /\
    programs stSecond.2 <> programs st0.2 /\
    programsAt st'.1 (programs st0.2) = programsAt stSecond.1 (programs st0.2) /\
    fs st'.2 = fs stSecond.2.
Proof.
  set (out := Require0 3 stSecond "./main.js").
  assert (Hok : returnsOk out = true) by (vm_compute; reflexivity).
  assert (HL : @later collab0 stSecond (after stSecond out)).
  { eapply later_Require; [|apply later_now].
    apply (returnsOk_eq None stSecond out Hok). }
  assert (Hne : programs stSecond.2 <> programs st0.2) by (vm_compute; discriminate).
  exists (after stSecond out). split; [exact HL|]. split; [exact Hok|].
  split; [exact Hne|].
  destruct (@calls_keep_to_own_caches collab0 _ _ HL) as ((_&Hfs&_) & _ & Hp & _).
  split; [|exact Hfs]. apply Hp. intros E. apply Hne. by rewrite E.
Defined.

(** Requiring the cached [/t/lib.js] again calls no compiler and leaves the
    program maps as they were. *)
Lemma caches_written_only_after_calls_witness :
  exists st',
    @later collab0 stWarm st' /\
    count isCompile (since stWarm.1 st'.1) = 0 /\
    1 <= count (isRunOf "/t/lib.js") (since stWarm.1 st'.1) /\
    programMaps st'.1 = programMaps stWarm.1.
Proof.
  set (out := Require0 2 stWarm "./lib.js").
  assert (HL : @later collab0 stWarm (after stWarm out)).
  { eapply later_Require; [|apply later_now].
    apply (returnsOk_eq None stWarm out). vm_compute. reflexivity. }
  assert (Hc : count isCompile (since stWarm.1 (after stWarm out).1) = 0).
  { vm_compute. reflexivity. }
  exists (after stWarm out). split; [exact HL|]. split; [exact Hc|].
  split; [vm_compute; lia|].
  exact (proj1 (@caches_written_only_after_calls collab0 _ _ HL) Hc).
Defined.

(** The replica [stBound] loads the entry module, from the cache, and then
    fails to load a module that is not cached. *)
Lemma bound_context_is_read_only_witness :
  exists st',
    @later collab0 stBound st' /\
    returnsOk (Require0 3 stBound "./main.js") = true /\
    programMaps st'.1 = programMaps stBound.1 /\
    fileMaps st'.1 = fileMaps stBound.1.
Proof.
  set (out1 := Require0 3 stBound "./main.js").
  set (out2 := Require0 1 (after stBound out1) "./throws.js").
  assert (Hok : returnsOk out1 = true) by (vm_compute; reflexivity).
  assert (HL : @later collab0 stBound (after stBound out2)).
  { eapply later_Require; [apply (returnsOk_eq None stBound out1 Hok)|].
    eapply later_Require; [|apply later_now].
    apply (errorOf_eq stBound out2 (errorString "no filesystem")).
    vm_compute. reflexivity. }
  exists (after stBound out2). split; [exact HL|]. split; [exact Hok|].
  destruct (@bound_context_is_read_only collab0 stWarm.2 1 rt0 stWarm.1 _
              (fun _ _ => eq_refl) HL) as (Hp & Hf & _).
  split; [exact Hp|exact Hf].
Defined.

Lemma soundCaches_st0 : @soundCaches collab0 st0.1.
Proof.
  exact (@soundCaches_NewInitContext collab0 (mkStore ∅ ∅ ∅ []) rt0 0 (Some disk) "/t"
           (@soundCaches_empty collab0 ∅ [])).
Qed.

(** The caches of [st0] after the entry module was loaded and a file was
    opened. *)
Lemma caches_stay_sound_witness :
  exists st',
    @later collab0 st0 st' /\
    is_Some (programsAt st'.1 (programs st'.2) !! "/t/lib.js") /\
    is_Some (filesAt st'.1 (files st'.2) !! "/t/a.txt") /\
    @soundCaches collab0 st'.1.
Proof.
  set (out := Require0 3 st0 "./main.js").
  set (stA := (Open0 (after st0 out) "a.txt").2).
  assert (HL : @later collab0 st0 stA).
  { eapply later_Require;
      [apply (returnsOk_eq None st0 out); vm_compute; reflexivity|].
    eapply later_Open; [|apply later_now].
    apply (pair_eq _ (Ok "hello")). vm_compute. reflexivity. }
  exists stA. split; [exact HL|].
  split; [exists (mkProgramWithSource libProgram libSource); reflexivity|].
  split; [exists (list_byte_of_string "hello"); vm_compute; reflexivity|].
  exact (@caches_stay_sound collab0 st0 stA soundCaches_st0 HL).
Defined.

(** [/t/lib.js] loaded through the base context, then required through a
    replica made after a further [Open]. *)
Lemma replica_reuses_compiled_module_witness :
  exists r1 st1 stL r2 st2,
    Require0 1 st0 "./lib.js" = Some (r1, st1) /\
    @later collab0 st1 stL /\
    Require0 1 (stL.1, @newBoundInitContext collab0 stL.2 1 rt0) "lib.js"
    = Some (r2, st2) /\
    count (isLoadOf InRequireFile "/t/lib.js") (since stL.1 st2.1) = 0 /\
    count (isCompileOf "/t/lib.js") (since stL.1 st2.1) = 0 /\
    1 <= count (isRunOf "/t/lib.js") (since stL.1 st2.1).
Proof.
  set (out1 := Require0 1 st0 "./lib.js").
  set (stA := (Open0 (after st0 out1) "a.txt").2).
  set (out2 := Require0 1 (stA.1, @newBoundInitContext collab0 stA.2 1 rt0) "lib.js").
  assert (H1 : out1 = Some (Ok (valueOf None out1), after st0 out1)).
  { apply returnsOk_eq. vm_compute. reflexivity. }
  assert (HL : @later collab0 (after st0 out1) stA).
  { eapply later_Open; [|apply later_now].
    apply (pair_eq _ (Ok "hello")). vm_compute. reflexivity. }
  assert (H2 : out2 = Some (Ok (valueOf None out2), after st0 out2)).
  { apply returnsOk_eq. vm_compute. reflexivity. }
  eexists _, _, _, _, _. split; [exact H1|]. split; [exact HL|].
  split; [exact H2|].
  refine ((fun H => conj (proj1 H)
             (conj (proj1 (proj2 (proj2 H))) (proj1 (proj2 (proj2 (proj2 H))))))
            (@replica_reuses_compiled_module collab0 1 1 st0 "./lib.js" "lib.js"
               (mkProgramWithSource libProgram libSource) _ _ _ 1 rt0 _ _
               _ _ _ _ _ H1 HL H2)).
  - reflexivity.
  - reflexivity.
  - vm_compute. reflexivity.
  - vm_compute. reflexivity.
  - reflexivity.
Defined.

(** [/t/throws.js] compiles and throws: the call fails and the program is
    cached. *)
Lemma failed_require_caches_unless_pipeline_fails_witness :
  exists st',
    Require0 1 st0 "./throws.js" = Some (Err (Exception (Str "boom")), st') /\
    programsAt st'.1 (programs st'.2) !! "/t/throws.js"
    = Some (mkProgramWithSource throwsProgram throwsSource).
Proof.
  set (out := Require0 1 st0 "./throws.js").
  assert (Hret : out = Some (Err (Exception (Str "boom")), after st0 out)).
  { apply errorOf_eq. vm_compute. reflexivity. }
  exists (after st0 out). split; [exact Hret|].
  destruct (@failed_require_caches_unless_pipeline_fails collab0 1 st0 "./throws.js"
              (Exception (Str "boom")) (after st0 out) eq_refl eq_refl Hret)
    as [(Hcs & _)|(p & Hcs & Hin & _)].
  - vm_compute in Hcs. discriminate Hcs.
  - assert (E : @compileSource collab0 (fs st0.2) (pwd st0.2) "./throws.js"
                = Ok (mkProgramWithSource throwsProgram throwsSource)) by reflexivity.
    rewrite E in Hcs. injection Hcs as <-. exact Hin.
Defined.

Lemma builtin_require_binds_new_object_witness :
  exists l1 st1 l2 st2,
    Require0 0 st0 "k6/http" = Some (Ok (Some (Object l1)), st1) /\
    Require0 0 st1 "k6/http" = Some (Ok (Some (Object l2)), st2) /\
    l1 <> l2.
Proof.
  destruct (@builtin_require_binds_new_object collab0 0 0 st0 "k6/http"
              {[ "status" := Number 200 ]} eq_refl)
    as (l1 & st1 & l2 & st2 & H1 & H2 & _ & _ & Hne & _).
  - vm_compute. reflexivity.
  - exists l1, st1, l2, st2. split; [exact H1|]. split; [exact H2|exact Hne].
Defined.

(** [/t/a.txt] opened, the entry module loaded, and the file opened again
    under another specifier. *)
Lemma open_content_is_stable_witness :
  exists st1 stL,
    Open0 st0 "a.txt" = (Ok "hello", st1) /\
    @later collab0 st1 stL /\
    1 <= count (isRunOf "/t/main.js") (since st1.1 stL.1) /\
    Open0 stL "./a.txt" = (Ok "hello", stL).
Proof.
  set (st1 := (Open0 st0 "a.txt").2).
  set (out := Require0 3 st1 "./main.js").
  assert (H1 : Open0 st0 "a.txt" = (Ok "hello", st1)).
  { apply pair_eq. vm_compute. reflexivity. }
  assert (HL : @later collab0 st1 (after st1 out)).
  { eapply later_Require; [|apply later_now].
    apply (returnsOk_eq None st1 out). vm_compute. reflexivity. }
  exists st1, (after st1 out). split; [exact H1|]. split; [exact HL|].
  split; [vm_compute; lia|].
  apply (@open_content_is_stable collab0 st0 "a.txt" "hello" st1 _ "./a.txt" H1 HL).
  vm_compute. reflexivity.
Defined.

(** [/t/sub/mid.js], required from [/t], requires [./leaf.js]: the loader is
    asked for it in [/t/sub]. *)
Lemma nested_require_resolves_in_module_directory_witness :
  exists r st',
    Require0 2 st0 "./sub/mid.js" = Some (r, st') /\
    In (EvLoad InRequireFile "/t/sub/leaf.js" "/t/sub" "./leaf.js")
       (since st0.1 st'.1).
Proof.
  set (out := Require0 2 st0 "./sub/mid.js").
  assert (Hret : out = Some (Ok (valueOf None out), after st0 out)).
  { apply returnsOk_eq. vm_compute. reflexivity. }
  eexists _, _. split; [exact Hret|].
  refine (@nested_require_resolves_in_module_directory collab0 2 st0 "./sub/mid.js"
            (mkProgramWithSource midProgram midSource) "./leaf.js"
            _ _ _ _ _ _ _ _ _ Hret).
  - reflexivity.
  - reflexivity.
  - right. split; [vm_compute; reflexivity|reflexivity].
  - reflexivity.
  - vm_compute. reflexivity.
  - vm_compute. discriminate.
Defined.

(** The cached module [/t/sub/reader.js], required from [/t], opens
    [./leaf.js]: the loader is asked for it in [/t/sub]. *)
Lemma nested_open_resolves_in_module_directory_witness :
  exists r st',
    Require0 1 stReader "./sub/reader.js" = Some (r, st') /\
    In (EvLoad InOpen "/t/sub/leaf.js" "/t/sub" "./leaf.js")
       (since stReader.1 st'.1).
Proof.
  set (out := Require0 1 stReader "./sub/reader.js").
  assert (Hret : out = Some (Ok (valueOf None out), after stReader out)).
  { apply returnsOk_eq. vm_compute. reflexivity. }
  eexists _, _. split; [exact Hret|].
  refine (@nested_open_resolves_in_module_directory collab0 1 stReader
            "./sub/reader.js"
            (mkProgramWithSource readerProgram "open('./leaf.js');") "./leaf.js"
            _ _ _ _ _ _ _ Hret).
  - reflexivity.
  - left. reflexivity.
  - reflexivity.
  - vm_compute. reflexivity.
Defined.
